(** * transform-jsx-to-htm-lite: the comment scanner and the rewrite rules

    A shallow embedding of [packages/wmr/src/lib/transform-jsx-to-htm-lite.js].

    - Source text is a [string]; its characters are the code units the
      JavaScript string holds (here restricted to the 8-bit range of [ascii]).
    - Offsets ([start], [end], loop indices) are natural numbers, as the
      parser produces them.
    - The [for] loop of [parseMaybeComments] is a fuelled iteration of its
      body over a record of the loop variables; the fuel [length code - i]
      is shown to be enough.
    - The visitor is a record of handlers.  A handler receives what it reads
      from its [path] and returns the edits it issues, in order, together
      with the traversal state. *)

From Stdlib Require Import String Ascii List Arith Bool Lia Sorted.
Import ListNotations.
Open Scope string_scope.
Open Scope nat_scope.

(** ** Offsets *)

(** [{start, end}]: a half-open range of offsets into the original text.
    ([end] is reserved in Rocq, hence [end_].) *)
Record range := mkRange { start : nat; end_ : nat }.

(** ** The JavaScript primitives the source uses *)

Module JS.

Definition LF : ascii := ascii_of_nat 10.
Definition CR : ascii := ascii_of_nat 13.
Definition slash : ascii := ascii_of_nat 47.
Definition star : ascii := ascii_of_nat 42.
Definition dquote : ascii := ascii_of_nat 34.

(** [code.charAt(i)]: the one-character string at [i], or the empty string
    ([None]) when [i] is out of range. *)
Definition charAt (code : string) (i : nat) : option ascii := String.get i code.

(** [char === 'c'] for a [charAt] result. *)
Definition is_char (char : option ascii) (c : ascii) : bool :=
  match char with
  | Some d => Ascii.eqb d c
  | None => false
  end.

(** [code.slice(a, b)] for non-negative integers: the characters at
    offsets [a .. b-1], clamped to the string; empty when [b <= a]. *)
Definition slice (code : string) (a b : nat) : string := substring a (b - a) code.

(** The class [\s] on 8-bit code units: TAB, LF, VT, FF, CR, SPACE, NBSP. *)
Definition is_space (c : ascii) : bool :=
  existsb (Nat.eqb (nat_of_ascii c)) [9; 10; 11; 12; 13; 32; 160].

(** [/\s/.test(char)] for a [charAt] result (false on the empty string). *)
Definition test_space (char : option ascii) : bool :=
  match char with
  | Some d => is_space d
  | None => false
  end.

(** [s.match(/^\s+/)] is truthy iff [s] starts with a whitespace
    character: the pattern is anchored at the start only. *)
Definition match_leading_space (s : string) : bool :=
  match s with
  | String c _ => is_space c
  | EmptyString => false
  end.

(** [s.match(/^\n\s+/)] is truthy iff [s] starts with a line feed that is
    followed by a whitespace character. *)
Definition match_newline_space (s : string) : bool :=
  match s with
  | String c (String d _) => Ascii.eqb c LF && is_space d
  | _ => false
  end.

(** The values a property read can give where the rules convert one to
    text: a string, [undefined], or an object. *)
Inductive value :=
| VString (s : string)
| VUndefined
| VObject.

(** [ToString], as string concatenation and template literals apply it. *)
Definition toString (v : value) : string :=
  match v with
  | VString s => s
  | VUndefined => "undefined"
  | VObject => "[object Object]"
  end.

(** A call either returns a value or throws. *)
Inductive completion (A : Type) :=
| Return (a : A)
| Throw (message : string).
Arguments Return {A} a.
Arguments Throw {A} message.

End JS.

(** ** The comment scanner: [parseMaybeComments] *)

Module Scanner.
Import JS.

(** [const NONE = 0, SINGLE = 1, MULTI = 2]. *)
Inductive mode := NONE | SINGLE | MULTI.

(** The variables of the loop. *)
Record vars := mkVars {
  i : nat;
  type : mode;
  commentStart : nat;
  lineStart : nat;
  out : list range
}.

(** How one run of the loop body ends: it falls through (or [continue]s) to
    the [i++] of the loop header, or it [break]s. *)
Inductive flow :=
| Next (v : vars)
| Break (v : vars).

(** The leading-whitespace test of both comment branches:
    [if (lineStart < commentStart) { if (slice.match(re)) commentStart = lineStart + 1 }]. *)
Definition absorb (re : string -> bool) (code : string) (v : vars) : nat :=
  if lineStart v <? commentStart v then
    if re (slice code (lineStart v) (commentStart v)) then lineStart v + 1
    else commentStart v
  else commentStart v.

(** The body of the [for] loop, at [i < code.length]. *)
Definition body (code : string) (v : vars) : flow :=
  let char := charAt code (i v) in
  match type v with
  | SINGLE =>
      if is_char char LF || is_char char CR then
        let commentStart' := absorb match_leading_space code v in
        let e := i v + 1 in
        Next {| i := e;
                type := NONE;
                commentStart := commentStart';
                lineStart := i v;
                out := out v ++ [mkRange commentStart' e] |}
      else Next v
  | MULTI =>
      if is_char char star && is_char (charAt code (i v + 1)) slash then
        let commentStart' := absorb match_newline_space code v in
        let next := charAt code (i v + 2) in
        let e := if is_char next LF || is_char next CR then i v + 2 + 1 else i v + 2 in
        Next {| i := e;
                type := NONE;
                commentStart := commentStart';
                lineStart := lineStart v;
                out := out v ++ [mkRange commentStart' e] |}
      else Next v
  | NONE =>
      if is_char char slash then
        if is_char (charAt code (i v + 1)) slash then
          Next {| i := i v + 1; type := SINGLE; commentStart := i v;
                  lineStart := lineStart v; out := out v |}
        else if is_char (charAt code (i v + 1)) star then
          Next {| i := i v + 1; type := MULTI; commentStart := i v;
                  lineStart := lineStart v; out := out v |}
        else Next v
      else if is_char char LF then
        Next {| i := i v; type := type v; commentStart := commentStart v;
                lineStart := i v; out := out v |}
      else if test_space char then
        Next {| i := i v; type := type v; commentStart := commentStart v + 1;
                lineStart := lineStart v; out := out v |}
      else Break v
  end.

(** The [i++] of the loop header. *)
Definition incr (v : vars) : vars :=
  {| i := i v + 1; type := type v; commentStart := commentStart v;
     lineStart := lineStart v; out := out v |}.

(** [for (...; i < code.length; i++) body], at most [fuel] iterations. *)
Fixpoint loop (fuel : nat) (code : string) (v : vars) : vars :=
  match fuel with
  | O => v
  | S fuel' =>
      if i v <? String.length code then
        match body code v with
        | Next v' => loop fuel' code (incr v')
        | Break v' => v'
        end
      else v
  end.

(** The loop from the variables [v] on: every iteration advances [i], so
    [length code - i] iterations reach the end of the text. *)
Definition run (code : string) (v : vars) : vars :=
  loop (String.length code - i v) code v.

(** [let commentStart = 0; let lineStart = start; let type = NONE; i = start]. *)
Definition init (start : nat) : vars :=
  {| i := start; type := NONE; commentStart := 0; lineStart := start; out := [] |}.

(** The variables when the loop is left. *)
Definition final (code : string) (start : nat) : vars := run code (init start).

Definition parseMaybeComments (code : string) (start : nat) : list range :=
  out (final code start).

End Scanner.

(** ** The rewrite rules: the visitor of [transformJsxToHtmLite] *)

Module Engine.
Import JS Scanner.

(** *** What the handlers read *)

(** The name of a tag (ESTree JSX): an identifier, a member access
    [a.b], or a namespaced name [a:b]. *)
Inductive name_node :=
| JSXIdentifier (loc : range) (name : string)
| JSXMemberExpression (loc : range) (object property : name_node)
| JSXNamespacedName (loc : range) (namespace name : name_node).

Definition name_loc (n : name_node) : range :=
  match n with
  | JSXIdentifier loc _ => loc
  | JSXMemberExpression loc _ _ => loc
  | JSXNamespacedName loc _ _ => loc
  end.

(** [node.name] of a tag name: the identifier's text; a member access has
    no such property; a namespaced name holds an identifier node there. *)
Definition name_name (n : name_node) : value :=
  match n with
  | JSXIdentifier _ name => VString name
  | JSXMemberExpression _ _ _ => VUndefined
  | JSXNamespacedName _ _ _ => VObject
  end.

(** [{ type: 'Line' | 'Block', start, end }], an entry of the parser's
    comment list. *)
Inductive comment_kind := Line | Block.
Record comment := mkComment { kind : comment_kind; comment_loc : range }.

(** A [JSXOpeningElement] node.  An attribute is read through its [start]
    and [end] only. *)
Record opening_element := mkOpening {
  opening_loc : range;
  opening_name : name_node;
  attributes : list range;
  selfClosing : bool
}.

Record closing_element := mkClosing {
  closing_loc : range;
  closing_name : name_node
}.

(** A [JSXText] node. *)
Record text := mkText { text_loc : range; value_ : string }.

(** A [JSXExpressionContainer]: its range and the type of its expression. *)
Record expression_container := mkContainer {
  container_loc : range;
  expression_type : string
}.

(** A [JSXSpreadAttribute]: its range and the range of its argument. *)
Record spread_attribute := mkSpread { spread_loc : range; argument : range }.

(** What a handler reads from its [path]: the node, the type of
    [path.parentPath.parent] (if there is such a node), the original text
    [path.ctx.out.original] and the comments [path.hub.file.ast.comments]. *)
Record path (N : Type) := mkPath {
  node : N;
  parentPath_parent : option string;
  original : string;
  comments : list comment
}.
Arguments mkPath {N} node parentPath_parent original comments.
Arguments node {N} p.
Arguments parentPath_parent {N} p.
Arguments original {N} p.
Arguments comments {N} p.

(** [t.isJSXElement(n)], [t.isJSXFragment(n)], [t.isJSXEmptyExpression(n)]. *)
Definition has_type (ty : string) (n : option string) : bool :=
  match n with
  | Some ty' => String.eqb ty' ty
  | None => false
  end.
Definition isJSXElement := has_type "JSXElement".
Definition isJSXFragment := has_type "JSXFragment".
Definition isJSXEmptyExpression := has_type "JSXEmptyExpression".

(** *** What the handlers issue *)

(** The path an edit is issued on: the handler's own [path], or
    [path.get(key)]. *)
Inductive target := Self | Get (key : string).

(** The edits, by the name of the call that issues them; the [ms_] ones
    are calls on the text buffer [path.ctx.out], at explicit offsets. *)
Inductive edit :=
| prependString (on : target) (s : string)
| appendString (on : target) (s : string)
| replaceWithString (on : target) (s : string)
| replaceWith (on : target) (by_node : range)
| remove (on : target)
| ms_remove (from to : nat)
| ms_overwrite (from to : nat) (content : string)
| ms_appendRight (index : nat) (content : string).

(** The traversal state: [state.jsx], falsy until set. *)
Record file_state := mkState { jsx : bool }.

(** *** Options *)

(** [options.import]: [false], a module name, or [{ module?, export? }]. *)
Inductive import_option :=
| ImportFalse
| ImportString (module : string)
| ImportObject (module export : option string).

Record options := mkOptions {
  tag : option string;
  terse : option bool;
  import : option import_option
}.

(** Truthiness of a string: non-empty. *)
Definition truthy_string (s : string) : bool :=
  match s with
  | EmptyString => false
  | _ => true
  end.

Definition truthy_import (imp : import_option) : bool :=
  match imp with
  | ImportFalse => false
  | ImportString s => truthy_string s
  | ImportObject _ _ => true
  end.

Definition is_upper (c : ascii) : bool :=
  (65 <=? nat_of_ascii c) && (nat_of_ascii c <=? 90).

Definition is_dot_or_dollar (c : ascii) : bool :=
  (nat_of_ascii c =? 46) || (nat_of_ascii c =? 36).

(** [/(^[A-Z]|[.$])/.test(name)]. *)
Definition test_component (name : string) : bool :=
  match name with
  | String c _ => is_upper c
  | EmptyString => false
  end
  || existsb is_dot_or_dollar (list_ascii_of_string name).

(** The test of [JSXText]: the text holds one of the four characters of
    its character class, [<], [>], [&] and the double quote. *)
Definition is_markup (c : ascii) : bool :=
  existsb (Nat.eqb (nat_of_ascii c)) [60; 62; 38; 34].
Definition test_markup (text : string) : bool :=
  existsb is_markup (list_ascii_of_string text).

Definition nl : string := String LF "".

Section Plugin.
Variable options : options.

Definition isIdent (node : name_node) : bool :=
  match node with
  | JSXIdentifier _ name => test_component name
  | JSXMemberExpression _ _ _ => true
  | JSXNamespacedName _ _ _ => false
  end.

Definition isRootElement {N} (path : path N) : bool :=
  negb (isJSXElement (parentPath_parent path))
  && negb (isJSXFragment (parentPath_parent path)).

(** [options.tag || 'html']. *)
Definition tagString : string :=
  match tag options with
  | Some s => if truthy_string s then s else "html"
  | None => "html"
  end.

(** [options.import || false]. *)
Definition tagImport : import_option :=
  match import options with
  | Some imp => if truthy_import imp then imp else ImportFalse
  | None => ImportFalse
  end.

(** [commentToHtml(path, comment, ifStart = 0, ifEnd = Infinity)];
    [None] stands for [Infinity]. *)
Definition commentToHtml (comment : comment) (ifStart : nat) (ifEnd : option nat)
  : list edit :=
  let c := comment_loc comment in
  if (ifStart <=? start c)
     && match ifEnd with Some e => end_ c <=? e | None => true end
  then
    ms_overwrite (start c) (start c + 2) "<!--"
    :: match kind comment with
       | Block => [ms_overwrite (end_ c - 2) (end_ c) "-->"]
       | Line => [ms_appendRight (end_ c) "-->"]
       end
  else [].

(** [if (state.jsx && tagImport) { ... prependString(import) }]. *)
Definition Program_exit (state : file_state) : list edit :=
  if jsx state && truthy_import tagImport then
    let lib :=
      match tagImport with
      | ImportString s => VString s
      | ImportObject (Some m) _ => VString m
      | _ => VUndefined
      end in
    let imp :=
      match tagImport with
      | ImportObject _ (Some e) => if truthy_string e then e else tagString
      | _ => tagString
      end in
    let imp := if String.eqb tagString imp then imp
               else (imp ++ " as " ++ tagString)%string in
    [prependString (Get "body")
       ("import { " ++ imp ++ " } from '" ++ toString lib ++ "';" ++ nl)%string]
  else [].

(** The loop over the attributes and the scan after the last one:
    [i] is where the next scan starts. *)
Fixpoint remove_comments (code : string) (i : nat) (attrs : list range) : list edit :=
  match attrs with
  | attr :: attrs' =>
      (map (fun c => ms_remove (start c) (end_ c)) (parseMaybeComments code i)
       ++ remove_comments code (end_ attr) attrs')%list
  | [] => map (fun c => ms_remove (start c) (end_ c)) (parseMaybeComments code i)
  end.

(** The loop over [path.hub.file.ast.comments]. *)
Definition comments_to_html (path : path opening_element) : list edit :=
  let last := end_ (name_loc (opening_name (node path))) in
  let attrs := attributes (node path) in
  flat_map
    (fun comment =>
       let c := comment_loc comment in
       if (last <=? start c) && (end_ c <? end_ (opening_loc (node path))) then
         let inExpression :=
           existsb (fun attr => (start attr <=? start c) && (end_ c <=? end_ attr)) attrs in
         if negb inExpression then commentToHtml comment 0 None else []
       else [])
    (comments path).

Definition JSXOpeningElement (path : path opening_element) (state : file_state)
  : list edit * file_state :=
  let state := {| jsx := true |} in
  let name := opening_name (node path) in
  let wrap_name :=
    if isIdent name
    then [prependString (Get "name") "${"; appendString (Get "name") "}"]
    else [] in
  let strip :=
    match attributes (node path) with
    | [] => []
    | attrs => remove_comments (original path) (end_ (name_loc name)) attrs
    end in
  let delimit :=
    if isRootElement path then
      prependString Self (tagString ++ "`")%string
      :: (if selfClosing (node path) then [appendString Self "`"] else [])
    else [] in
  ((wrap_name ++ strip ++ delimit ++ comments_to_html path)%list, state).

Definition JSXClosingElement (path : path closing_element) : list edit :=
  let name := name_name (closing_name (node path)) in
  let name :=
    if isIdent (closing_name (node path)) then
      match terse options with
      | Some true => VString "/"
      | _ => VString ("${" ++ toString name ++ "}")%string
      end
    else name in
  let str := ("</" ++ toString name ++ ">")%string in
  let str := if isRootElement path then (str ++ "`")%string else str in
  [replaceWithString Self str].

Definition JSXOpeningFragment (path : path range) : list edit :=
  if negb (isRootElement path) then [remove Self]
  else [replaceWithString Self (tagString ++ "`")%string].

Definition JSXClosingFragment (path : path range) : list edit :=
  if negb (isRootElement path) then [remove Self]
  else [replaceWithString Self "`"].

Definition JSXSpreadAttribute (path : path spread_attribute) : list edit :=
  [replaceWith Self (argument (node path));
   prependString Self "...${";
   appendString Self "}"].

Definition JSXText (path : path text) : list edit :=
  let text := value_ (node path) in
  if test_markup text
  then [replaceWithString Self ("${`" ++ text ++ "`}")%string]
  else [replaceWithString Self text].

Definition JSXExpressionContainer (path : path expression_container) : list edit :=
  if isJSXEmptyExpression (Some (expression_type (node path))) then [remove Self]
  else [prependString Self "$"].

End Plugin.

(** The object the plugin returns: its name and its visitor. *)
Record visitor := mkVisitor {
  on_Program_exit : file_state -> list edit;
  on_JSXOpeningElement : path opening_element -> file_state -> list edit * file_state;
  on_JSXClosingElement : path closing_element -> list edit;
  on_JSXOpeningFragment : path range -> list edit;
  on_JSXClosingFragment : path range -> list edit;
  on_JSXSpreadAttribute : path spread_attribute -> list edit;
  on_JSXText : path text -> list edit;
  on_JSXExpressionContainer : path expression_container -> list edit
}.

Record plugin := mkPlugin { name : string; visitor_of : visitor }.

(** The function itself: it reads [options.tag] and [options.import],
    builds the handlers and returns; no statement of it throws. *)
Definition transformJsxToHtmLite (options : options) : completion plugin :=
  Return
    {| name := "transform-jsx-to-htm-lite";
       visitor_of :=
         {| on_Program_exit := Program_exit options;
            on_JSXOpeningElement := JSXOpeningElement options;
            on_JSXClosingElement := JSXClosingElement options;
            on_JSXOpeningFragment := JSXOpeningFragment options;
            on_JSXClosingFragment := JSXClosingFragment;
            on_JSXSpreadAttribute := JSXSpreadAttribute;
            on_JSXText := JSXText;
            on_JSXExpressionContainer := JSXExpressionContainer |} |}.

(** *** The collaborators of the handlers *)

(** Modelled from the spec: the tree-visitor harness is not part of this
    file.  It walks the tree once, depth-first, and invokes the handler of
    each node's kind as the node is reached; a kind without a handler is
    passed by.  A walk is therefore the sequence of the nodes it reaches. *)
Inductive visit :=
| OpeningElement (p : path opening_element)
| ClosingElement (p : path closing_element)
| OpeningFragment (p : path range)
| ClosingFragment (p : path range)
| SpreadAttribute (p : path spread_attribute)
| Text (p : path text)
| ExpressionContainer (p : path expression_container)
| Unhandled (type : string).

Definition dispatch (v : visitor) (n : visit) (state : file_state)
  : list edit * file_state :=
  match n with
  | OpeningElement p => on_JSXOpeningElement v p state
  | ClosingElement p => (on_JSXClosingElement v p, state)
  | OpeningFragment p => (on_JSXOpeningFragment v p, state)
  | ClosingFragment p => (on_JSXClosingFragment v p, state)
  | SpreadAttribute p => (on_JSXSpreadAttribute v p, state)
  | Text p => (on_JSXText v p, state)
  | ExpressionContainer p => (on_JSXExpressionContainer v p, state)
  | Unhandled _ => ([], state)
  end.

Fixpoint walk (v : visitor) (ns : list visit) (state : file_state)
  : list edit * file_state :=
  match ns with
  | [] => ([], state)
  | n :: ns' =>
      let (es, state) := dispatch v n state in
      let (es', state) := walk v ns' state in
      ((es ++ es')%list, state)
  end.

(** Modelled from the spec: one file is transformed by building the plugin
    from the options, walking the nodes with the flag initially false, and
    running the end-of-file rule; the result is the log of the edits. *)
Definition transform (options : options) (ns : list visit) : completion (list edit) :=
  match transformJsxToHtmLite options with
  | Return p =>
      let (es, state) := walk (visitor_of p) ns (mkState false) in
      Return (es ++ on_Program_exit (visitor_of p) state)%list
  | Throw message => Throw message
  end.

(** Modelled from the spec: the text buffer's [remove(start, end)] deletes
    the characters of the original text at the offsets [start .. end-1]. *)
Definition apply_remove (code : string) (r : range) : string :=
  (substring 0 (start r) code
   ++ substring (end_ r) (String.length code - end_ r) code)%string.

(** The offsets of the original text an [ms_] edit covers. *)
Definition edit_range (e : edit) : option range :=
  match e with
  | ms_remove from to => Some (mkRange from to)
  | ms_overwrite from to _ => Some (mkRange from to)
  | ms_appendRight index _ => Some (mkRange index index)
  | _ => None
  end.

End Engine.

Import JS Scanner Engine.

(** * The properties, as predicates on the model *)

Section Properties.

(** [char === '\n' || char === '\r']. *)
Definition is_line_end (char : option ascii) : bool :=
  is_char char LF || is_char char CR.

(** A span lies in the text, from the start offset of the scan on, and is
    not empty. *)
Definition in_bounds (code : string) (start0 : nat) (r : range) : Prop :=
  start0 <= start r /\ start r < end_ r /\ end_ r <= String.length code.

Definition starts_increasing : list range -> Prop :=
  StronglySorted (fun a b => start a < start b).

Definition ends_increasing : list range -> Prop :=
  StronglySorted (fun a b => end_ a < end_ b).

(** Two half-open ranges share an offset. *)
Definition overlap (a b : range) : Prop :=
  start a < end_ b /\ start b < end_ a.

Definition pairwise_disjoint : list range -> Prop :=
  ForallOrdPairs (fun a b => ~ overlap a b).

(** A list of spans: in bounds, in strictly increasing order of start
    offset, no two of them overlapping. *)
Definition well_formed (code : string) (start0 : nat) (l : list range) : Prop :=
  Forall (in_bounds code start0) l /\ starts_increasing l /\ pairwise_disjoint l.

(** The span ends with the terminator of its comment: its last character
    is a line end (a line comment, or a block comment whose following line
    end was taken in), or its last two characters are the closing of a
    block comment. *)
Definition terminated (code : string) (r : range) : Prop :=
  is_line_end (charAt code (end_ r - 1)) = true
  \/ (is_char (charAt code (end_ r - 2)) star = true
      /\ is_char (charAt code (end_ r - 1)) slash = true).

(** What holds of the loop variables at the head of every iteration of a
    scan that started at [start0]. *)
Definition inv (code : string) (start0 : nat) (v : vars) : Prop :=
  start0 <= lineStart v
  /\ start0 <= i v
  /\ (type v <> NONE ->
      start0 <= commentStart v
      /\ commentStart v < i v
      /\ commentStart v < String.length code
      /\ Forall (fun r => end_ r <= commentStart v) (out v))
  /\ Forall (fun r => in_bounds code start0 r /\ end_ r <= i v /\ terminated code r)
            (out v)
  /\ ends_increasing (out v).

(** Two texts of one length that hold the same characters from the offset
    [start0] on. *)
Definition same_from (start0 : nat) (code code' : string) : Prop :=
  String.length code' = String.length code
  /\ forall k, start0 <= k -> String.get k code' = String.get k code.

(** The text holds one of the characters [<], [>], [&], double quote. *)
Definition contains_markup (text : string) : Prop :=
  exists c, In c (list_ascii_of_string text)
            /\ (c = "<"%char \/ c = ">"%char \/ c = "&"%char \/ c = dquote).




Definition is_opening_element (n : visit) : bool :=
  match n with
  | OpeningElement _ => true
  | _ => false
  end.


(** Every character of [w] passes the test [P]. *)
Fixpoint all_chars (P : ascii -> bool) (w : string) : bool :=
  match w with
  | EmptyString => true
  | String c w' => P c && all_chars P w'
  end.

(** Whitespace that does not start a new line for the scanner. *)
Definition is_blank (c : ascii) : bool := is_space c && negb (Ascii.eqb c LF).

(** A character that does not end a line comment. *)
Definition not_line_end (c : ascii) : bool :=
  negb (Ascii.eqb c LF || Ascii.eqb c CR).

(** The characters of [w] stand in [code] from the offset [p] on. *)
Fixpoint occurs (w : string) (p : nat) (code : string) : Prop :=
  match w with
  | EmptyString => True
  | String c w' => String.get p code = Some c /\ occurs w' (S p) code
  end.

(** A line that holds a line comment and nothing else: its indentation,
    the two slashes, the text of the comment, and the line feed. *)
Definition comment_line (l : string * string) : string :=
  (fst l ++ "//" ++ snd l ++ nl)%string.

Fixpoint comment_lines (ls : list (string * string)) : string :=
  match ls with
  | [] => EmptyString
  | l :: ls' => (comment_line l ++ comment_lines ls')%string
  end.

(** The line is indented by blanks and its comment runs to the line feed. *)
Definition own_line (l : string * string) : Prop :=
  fst l <> EmptyString
  /\ all_chars is_blank (fst l) = true
  /\ all_chars not_line_end (snd l) = true.

(** The ranges of consecutive lines, the first of them starting at [p]. *)
Fixpoint line_spans (p : nat) (ls : list (string * string)) : list range :=
  match ls with
  | [] => []
  | l :: ls' =>
      mkRange p (p + String.length (comment_line l))
      :: line_spans (p + String.length (comment_line l)) ls'
  end.

(** The offsets the opening-tag rule scans from: the end of the tag name
    and the end of every attribute. *)
Definition scan_starts (n : opening_element) : list nat :=
  end_ (name_loc (opening_name n)) :: map end_ (attributes n).

(** No closing of a block comment, a star followed by a slash, lies in [w]. *)
Fixpoint no_close (w : string) : bool :=
  match w with
  | EmptyString => true
  | String c w' =>
      negb (Ascii.eqb c star
            && match w' with
               | String d _ => Ascii.eqb d slash
               | EmptyString => false
               end)
      && no_close w'
  end.

(** The text does not start with a line end. *)
Definition no_line_end_ahead (w : string) : bool :=
  match w with
  | EmptyString => true
  | String c _ => not_line_end c
  end.

(** A text at which a scan in state NONE ends without a further span: the
    end of the text, a character that is neither whitespace nor a slash, or
    a slash that opens no comment and is followed by such a character or by
    the end of the text. *)
Definition ends_scan (tail : string) : bool :=
  match tail with
  | EmptyString => true
  | String c t =>
      if Ascii.eqb c slash then
        match t with
        | EmptyString => true
        | String d _ =>
            negb (is_space d) && negb (Ascii.eqb d slash) && negb (Ascii.eqb d star)
        end
      else negb (is_space c)
  end.

(** A comment opens at the offset [k]: a slash followed by a slash or a star. *)
Definition opener (code : string) (k : nat) : Prop :=
  is_char (charAt code k) slash = true
  /\ (is_char (charAt code (k + 1)) slash = true
      \/ is_char (charAt code (k + 1)) star = true).

(** Every span holds the opening of a comment. *)
Definition holds_opener (code : string) (r : range) : Prop :=
  exists k, start r <= k /\ k + 1 < end_ r /\ opener code k.

(** With the comment open at [commentStart] while inside one. *)
Definition inv_opener (code : string) (v : vars) : Prop :=
  (type v <> NONE -> opener code (commentStart v))
  /\ Forall (holds_opener code) (out v).

(** The edits the text buffer receives at explicit offsets. *)
Definition is_ms_remove (e : edit) : bool :=
  match e with
  | ms_remove _ _ => true
  | _ => false
  end.

Definition is_html_edit (e : edit) : bool :=
  match e with
  | ms_overwrite _ _ _ | ms_appendRight _ _ => true
  | _ => false
  end.

(** An edit issued on the handler's own [path]. *)
Definition on_self (e : edit) : bool :=
  match e with
  | prependString Self _ | appendString Self _
  | replaceWithString Self _ | replaceWith Self _ | remove Self => true
  | _ => false
  end.

(** An edit issued on [path.get('body')]. *)
Definition on_body (e : edit) : bool :=
  match e with
  | prependString (Get key) _ | appendString (Get key) _
  | replaceWithString (Get key) _ | replaceWith (Get key) _ | remove (Get key) =>
      String.eqb key "body"
  | _ => false
  end.

(** An edit issued on [path.get('name')]. *)
Definition on_name (e : edit) : bool :=
  match e with
  | prependString (Get key) _ | appendString (Get key) _
  | replaceWithString (Get key) _ | replaceWith (Get key) _ | remove (Get key) =>
      String.eqb key "name"
  | _ => false
  end.

(** A lower-case letter, a digit or a hyphen: the characters of the names
    of plain tags. *)
Definition is_plain_char (c : ascii) : bool :=
  ((97 <=? nat_of_ascii c) && (nat_of_ascii c <=? 122))
  || ((48 <=? nat_of_ascii c) && (nat_of_ascii c <=? 57))
  || (nat_of_ascii c =? 45).

(** The comment lies inside one of the attributes. *)
Definition inside_attribute (attrs : list range) (c : range) : Prop :=
  exists attr, In attr attrs /\ start attr <= start c /\ end_ c <= end_ attr.

End Properties.

(** * Example inputs *)

Section Examples.

Definition dq : string := String dquote "".

(** Scenario 4: a line comment on its own line before the attribute [id]. *)
Definition scenario4 : string :=
  "<div" ++ nl ++ "  // comment" ++ nl ++ "  id=" ++ dq ++ "foo" ++ dq ++ nl ++ "/>".

Definition scenario4_path : path opening_element :=
  mkPath (mkOpening (mkRange 0 31) (JSXIdentifier (mkRange 1 4) "div")
                    [mkRange 20 28] true)
         (Some "ExpressionStatement") scenario4 [].

(** Two indented comment lines before the attribute [id]. *)
Definition two_comment_lines : string :=
  "<div" ++ nl ++ "  // a" ++ nl ++ " // b" ++ nl ++ "  id=" ++ dq ++ "x" ++ dq ++ nl ++ "/>".

(** Two line comments that start in the first column, one after the other. *)
Definition sibling_line_comments : string :=
  "<div" ++ nl ++ "// a" ++ nl ++ "// b" ++ nl ++ "id=" ++ dq ++ "x" ++ dq ++ nl ++ "/>".

(** Two block comments on one indented line. *)
Definition two_block_comments : string :=
  "<A" ++ nl ++ "  /* a */ /* b */" ++ nl ++ "  foo=" ++ dq ++ "a" ++ dq ++ " />".

(** The same text under another tag name of the same length. *)
Definition two_block_comments_B : string :=
  "<B" ++ nl ++ "  /* a */ /* b */" ++ nl ++ "  foo=" ++ dq ++ "a" ++ dq ++ " />".

(** A block comment closed, a line comment left open at the end. *)
Definition open_line_comment : string := "/* a */ // b".

(** A self-closing tag with a comment between its [/] and its [>],
    followed by a line comment of the surrounding program. *)
Definition comment_before_tag_end : string :=
  "<div a=" ++ dq ++ "b" ++ dq ++ " / /* c */> // t" ++ nl.

Definition comment_before_tag_end_path : path opening_element :=
  mkPath (mkOpening (mkRange 0 21) (JSXIdentifier (mkRange 1 4) "div")
                    [mkRange 5 10] true)
         (Some "ExpressionStatement") comment_before_tag_end [].

(** [</Ctx.Provider>], the closing tag of a root element. *)
Definition member_closing_path : path closing_element :=
  mkPath (mkClosing (mkRange 14 29)
            (JSXMemberExpression (mkRange 16 28)
               (JSXIdentifier (mkRange 16 19) "Ctx")
               (JSXIdentifier (mkRange 20 28) "Provider")))
         (Some "ExpressionStatement") "<Ctx.Provider></Ctx.Provider>" [].

(** The nodes a walk reaches in [<>hi</>]: a root fragment around a text. *)
Definition fragment_only : list visit :=
  [OpeningFragment (mkPath (mkRange 0 2) (Some "ExpressionStatement") "<>hi</>" []);
   Text (mkPath (mkText (mkRange 2 4) "hi") (Some "ExpressionStatement") "<>hi</>" []);
   ClosingFragment (mkPath (mkRange 4 7) (Some "ExpressionStatement") "<>hi</>" [])].

Definition import_htm : options :=
  mkOptions None None (Some (ImportString "htm/preact")).


Definition default_options : options := mkOptions None None None.

(** A tag without comments: [<div a=.. b />]. *)
Definition plain_tag : string :=
  "<div a=" ++ dq ++ "x" ++ dq ++ nl ++ "  b />".

Definition plain_tag_path : path opening_element :=
  mkPath (mkOpening (mkRange 0 17) (JSXIdentifier (mkRange 1 4) "div")
                    [mkRange 5 10; mkRange 13 14] true)
         (Some "ExpressionStatement") plain_tag [].

(** A block comment on a line of its own before the attribute [id]. *)
Definition block_comment_line : string :=
  "<div" ++ nl ++ "  /* comment */" ++ nl ++ "  id=" ++ dq ++ "foo" ++ dq ++ nl ++ "/>".

Definition block_comment_line_path : path opening_element :=
  mkPath (mkOpening (mkRange 0 34) (JSXIdentifier (mkRange 1 4) "div")
                    [mkRange 23 31] true)
         (Some "ExpressionStatement") block_comment_line [].

(** The example of the source: [<A /* comment */ foo=.. /* other comment */ />]. *)
Definition inline_block_comments : string :=
  "<A /* comment */ foo=" ++ dq ++ "a" ++ dq ++ " /* other comment */ />".

Definition inline_block_comments_path : path opening_element :=
  mkPath (mkOpening (mkRange 0 47) (JSXIdentifier (mkRange 1 2) "A")
                    [mkRange 17 24] true)
         (Some "ExpressionStatement") inline_block_comments [].

(** A line comment after an attribute, on the attribute's line. *)
Definition trailing_line_comment : string :=
  "<div a=" ++ dq ++ "x" ++ dq ++ " // c" ++ nl ++ "  b />".

Definition trailing_line_comment_path : path opening_element :=
  mkPath (mkOpening (mkRange 0 22) (JSXIdentifier (mkRange 1 4) "div")
                    [mkRange 5 10; mkRange 18 19] true)
         (Some "ExpressionStatement") trailing_line_comment [].

(** Scenario 4 with the line ends of a CR LF file. *)
Definition crlf : string := String CR nl.
Definition scenario4_crlf : string :=
  "<div" ++ crlf ++ "  // comment" ++ crlf ++ "  id=" ++ dq ++ "foo" ++ dq ++ crlf ++ "/>".

(** A tag without attributes that holds a block comment, and the comment as
    the parser lists it. *)
Definition bare_tag_comment_path : path opening_element :=
  mkPath (mkOpening (mkRange 0 14) (JSXIdentifier (mkRange 1 4) "div") [] false)
         (Some "ExpressionStatement") "<div /* c */ >x</div>"
         [mkComment Block (mkRange 5 12)].

(** [<div a={/* in */ x} /* out */ />] with both comments listed. *)
Definition attribute_comment_path : path opening_element :=
  mkPath (mkOpening (mkRange 0 32) (JSXIdentifier (mkRange 1 4) "div")
                    [mkRange 5 19] true)
         (Some "ExpressionStatement") "<div a={/* in */ x} /* out */ />"
         [mkComment Block (mkRange 8 16); mkComment Block (mkRange 20 29)].

Definition scenario4_crlf_path : path opening_element :=
  mkPath (mkOpening (mkRange 0 34) (JSXIdentifier (mkRange 1 4) "div")
                    [mkRange 22 30] true)
         (Some "ExpressionStatement") scenario4_crlf [].

Definition two_comment_lines_path : path opening_element :=
  mkPath (mkOpening (mkRange 0 29) (JSXIdentifier (mkRange 1 4) "div")
                    [mkRange 20 26] true)
         (Some "ExpressionStatement") two_comment_lines [].

Definition terse_options : options := mkOptions None (Some true) None.

(** [{ tag: 'h', import: { module: 'preact', export: 'html' } }]. *)
Definition aliased_import : options :=
  mkOptions (Some "h") None (Some (ImportObject (Some "preact") (Some "html"))).

(** The nodes a walk reaches in [<a>b</a>]. *)
Definition element_walk : list visit :=
  [OpeningElement
     (mkPath (mkOpening (mkRange 0 3) (JSXIdentifier (mkRange 1 2) "a") [] false)
             (Some "ExpressionStatement") "<a>b</a>" []);
   Text (mkPath (mkText (mkRange 3 4) "b") (Some "ExpressionStatement") "<a>b</a>" []);
   ClosingElement
     (mkPath (mkClosing (mkRange 4 8) (JSXIdentifier (mkRange 6 7) "a"))
             (Some "ExpressionStatement") "<a>b</a>" [])].

End Examples.

(** * Properties of the scanner *)

Section ScannerFacts.

Lemma get_Some_lt (code : string) :
  forall k c, String.get k code = Some c -> k < String.length code.
Proof.
  induction code as [|d code IH]; intros k c H.
  - destruct k; discriminate.
  - destruct k as [|k]; simpl in *.
    + lia.
    + apply IH in H. lia.
Qed.

Lemma is_char_lt code k c :
  is_char (charAt code k) c = true -> k < String.length code.
Proof.
  unfold is_char, charAt. destruct (String.get k code) eqn:E; [|discriminate].
  intros _. eapply get_Some_lt; eauto.
Qed.

Lemma is_char_eq code k c :
  is_char (charAt code k) c = true -> String.get k code = Some c.
Proof.
  unfold is_char, charAt. destruct (String.get k code) eqn:E; [|discriminate].
  intros H. apply Ascii.eqb_eq in H. now subst.
Qed.

(** Every iteration leaves [i] where it was or moves it forward. *)
Lemma body_i_le code v v' : body code v = Next v' -> i v <= i v'.
Proof.
  unfold body. intros H.
  repeat match type of H with
         | context [match ?x with _ => _ end] => destruct x
         end; inversion H; subst; simpl; lia.
Qed.

(** Fuel beyond [length code - i] changes nothing. *)
Lemma loop_fuel code :
  forall f1 f2 v,
    String.length code - i v <= f1 ->
    String.length code - i v <= f2 ->
    loop f1 code v = loop f2 code v.
Proof.
  induction f1 as [|f1 IH]; intros f2 v H1 H2.
  - destruct f2 as [|f2]; simpl; [reflexivity|].
    destruct (i v <? String.length code) eqn:E; [|reflexivity].
    apply Nat.ltb_lt in E. lia.
  - destruct f2 as [|f2]; simpl.
    + destruct (i v <? String.length code) eqn:E; [|reflexivity].
      apply Nat.ltb_lt in E. lia.
    + destruct (i v <? String.length code) eqn:E; [|reflexivity].
      destruct (body code v) as [v'|v'] eqn:B; [|reflexivity].
      apply body_i_le in B. apply IH; unfold incr; simpl; lia.
Qed.

(** The loop, one iteration at a time. *)
Lemma run_unfold code v :
  run code v =
  if i v <? String.length code then
    match body code v with
    | Next v' => run code (incr v')
    | Break v' => v'
    end
  else v.
Proof.
  unfold run at 1.
  destruct (String.length code - i v) as [|f] eqn:F; simpl.
  - destruct (i v <? String.length code) eqn:E; [|reflexivity].
    apply Nat.ltb_lt in E. lia.
  - destruct (i v <? String.length code) eqn:E; [|reflexivity].
    destruct (body code v) as [v'|v'] eqn:B; [|reflexivity].
    apply body_i_le in B. unfold run. apply loop_fuel; unfold incr; simpl; lia.
Qed.

(** The model is total: past the fuel of [run] the loop has stopped, so
    [run] is the loop run to its end. *)
Lemma run_complete code v fuel :
  String.length code - i v <= fuel -> loop fuel code v = run code v.
Proof. intros H. unfold run. apply loop_fuel; lia. Qed.

Lemma body_break code v v' : body code v = Break v' -> v' = v /\ type v = NONE.
Proof.
  unfold body. intros H.
  repeat match type of H with
         | context [match ?x with _ => _ end] => destruct x eqn:?
         end; inversion H; subst; auto.
Qed.

Lemma absorb_cases re code v :
  absorb re code v = commentStart v
  \/ (absorb re code v = lineStart v + 1 /\ lineStart v < commentStart v).
Proof.
  unfold absorb. destruct (lineStart v <? commentStart v) eqn:E; auto.
  apply Nat.ltb_lt in E. destruct (re _); auto.
Qed.

Lemma ends_increasing_snoc l r :
  ends_increasing l ->
  Forall (fun a => end_ a < end_ r) l ->
  ends_increasing (l ++ [r]).
Proof.
  unfold ends_increasing. induction 1 as [|a l Hs IH Ha]; intros Hall; simpl.
  - repeat constructor.
  - inversion Hall; subst. constructor; auto.
    apply Forall_app. split; auto.
Qed.

Lemma init_inv code start0 : inv code start0 (init start0).
Proof.
  unfold inv, init; simpl.
  split; [lia|]. split; [lia|]. split; [intros H; congruence|].
  split; constructor.
Qed.

Lemma spans_mono code start0 k k' l :
  k <= k' ->
  Forall (fun r => in_bounds code start0 r /\ end_ r <= k /\ terminated code r) l ->
  Forall (fun r => in_bounds code start0 r /\ end_ r <= k' /\ terminated code r) l.
Proof.
  intros Hk H. eapply Forall_impl; [|exact H]. simpl.
  intros r (? & ? & ?). split; [assumption|]. split; [lia|assumption].
Qed.

Lemma spans_below code start0 k k' l :
  k <= k' ->
  Forall (fun r => in_bounds code start0 r /\ end_ r <= k /\ terminated code r) l ->
  Forall (fun r => end_ r <= k') l.
Proof.
  intros Hk H. eapply Forall_impl; [|exact H]. simpl. intros r (? & ? & ?). lia.
Qed.

Lemma spans_before code start0 k e l :
  k < e ->
  Forall (fun r => in_bounds code start0 r /\ end_ r <= k /\ terminated code r) l ->
  Forall (fun a => end_ a < e) l.
Proof.
  intros Hk H. eapply Forall_impl; [|exact H]. simpl. intros r (? & ? & ?). lia.
Qed.

(** The variables after a comment was closed at [e] and its span pushed. *)
Lemma push_inv code start0 v s e ls :
  inv code start0 v ->
  type v <> NONE ->
  start0 <= ls ->
  (s = commentStart v \/ (s = lineStart v + 1 /\ lineStart v < commentStart v)) ->
  i v < e -> e <= String.length code ->
  terminated code (mkRange s e) ->
  inv code start0
      (incr {| i := e; type := NONE; commentStart := s; lineStart := ls;
               out := out v ++ [mkRange s e] |}).
Proof.
  intros (Hl & Hs & Hc & Ho & Hsorted) T Hls Hs' Hie He Ht.
  destruct (Hc T) as (Hc1 & Hc2 & Hc3 & Hc4).
  unfold inv, incr; simpl.
  split; [exact Hls|]. split; [lia|]. split; [intros H; congruence|]. split.
  - apply Forall_app. split.
    + eapply spans_mono; [|exact Ho]. lia.
    + constructor; [|constructor]. unfold in_bounds; simpl.
      repeat split; auto; lia.
  - apply ends_increasing_snoc; auto. simpl.
    eapply spans_before; [|exact Ho]. lia.
Qed.

(** The variables after an iteration that only moved on. *)
Lemma skip_inv code start0 v cs ls :
  inv code start0 v ->
  start0 <= ls ->
  (type v <> NONE -> cs = commentStart v) ->
  inv code start0
      (incr {| i := i v; type := type v; commentStart := cs; lineStart := ls;
               out := out v |}).
Proof.
  intros (Hl & Hs & Hc & Ho & Hsorted) Hls Hcs.
  unfold inv, incr; simpl.
  split; [exact Hls|]. split; [lia|]. split; [|split].
  - intros T. destruct (Hc T) as (Hc1 & Hc2 & Hc3 & Hc4). rewrite (Hcs T).
    repeat split; auto; lia.
  - eapply spans_mono; [|exact Ho]. lia.
  - exact Hsorted.
Qed.

(** The variables after the opening of a comment was read at [i]. *)
Lemma enter_inv code start0 v t :
  inv code start0 v ->
  i v + 1 < String.length code ->
  inv code start0
      (incr {| i := i v + 1; type := t; commentStart := i v;
               lineStart := lineStart v; out := out v |}).
Proof.
  intros (Hl & Hs & Hc & Ho & Hsorted) Hi.
  unfold inv, incr; simpl.
  split; [exact Hl|]. split; [lia|]. split; [|split].
  - intros _. repeat split; try lia.
    eapply spans_below; [|exact Ho]. lia.
  - eapply spans_mono; [|exact Ho]. lia.
  - exact Hsorted.
Qed.

Lemma vars_eta v :
  v = {| i := i v; type := type v; commentStart := commentStart v;
         lineStart := lineStart v; out := out v |}.
Proof. now destruct v. Qed.

(** One iteration keeps the invariant. *)
Lemma body_inv code start0 v v' :
  i v < String.length code ->
  inv code start0 v ->
  body code v = Next v' ->
  inv code start0 (incr v').
Proof.
  intros Hi Hv B.
  pose proof Hv as (Hl & Hs & Hc & _).
  unfold body in B.
  destruct (type v) eqn:T.
  - (* NONE *)
    destruct (is_char (charAt code (i v)) slash) eqn:C1.
    + destruct (is_char (charAt code (i v + 1)) slash) eqn:C2;
        [|destruct (is_char (charAt code (i v + 1)) star) eqn:C3];
        inversion B; subst.
      * apply enter_inv; auto. eapply is_char_lt; eauto.
      * apply enter_inv; auto. eapply is_char_lt; eauto.
      * rewrite (vars_eta v'). apply skip_inv; auto.
    + destruct (is_char (charAt code (i v)) LF) eqn:C2;
        [|destruct (test_space (charAt code (i v))) eqn:C3];
        inversion B; subst.
      * rewrite <- T. apply skip_inv; auto.
      * rewrite <- T. apply skip_inv; auto. intros H; congruence.
  - (* SINGLE *)
    destruct Hc as (Hc1 & Hc2 & Hc3 & Hc4); [congruence|].
    destruct (is_char (charAt code (i v)) LF || is_char (charAt code (i v)) CR) eqn:C1;
      inversion B; subst.
    + apply push_inv; auto; try congruence; try lia.
      * apply absorb_cases.
      * left. simpl. replace (i v + 1 - 1) with (i v) by lia. exact C1.
    + rewrite (vars_eta v'). apply skip_inv; auto.
  - (* MULTI *)
    destruct Hc as (Hc1 & Hc2 & Hc3 & Hc4); [congruence|].
    destruct (is_char (charAt code (i v)) star
              && is_char (charAt code (i v + 1)) slash) eqn:C1.
    + apply andb_true_iff in C1. destruct C1 as (C1 & C2).
      pose proof (is_char_lt _ _ _ C2) as L2.
      destruct (is_char (charAt code (i v + 2)) LF
                || is_char (charAt code (i v + 2)) CR) eqn:C3;
        inversion B; subst.
      * assert (L3 : i v + 2 < String.length code).
        { apply orb_true_iff in C3. destruct C3 as [C3|C3];
            eapply is_char_lt; eauto. }
        apply push_inv; auto; try congruence; try lia.
        -- apply absorb_cases.
        -- left. simpl. replace (i v + 2 + 1 - 1) with (i v + 2) by lia. exact C3.
      * apply push_inv; auto; try congruence; try lia.
        -- apply absorb_cases.
        -- right. simpl. replace (i v + 2 - 2) with (i v) by lia.
           replace (i v + 2 - 1) with (i v + 1) by lia. auto.
    + inversion B; subst. rewrite (vars_eta v'). apply skip_inv; auto.
Qed.

Lemma loop_inv code start0 :
  forall fuel v, inv code start0 v -> inv code start0 (loop fuel code v).
Proof.
  induction fuel as [|fuel IH]; intros v Hv; simpl; auto.
  destruct (i v <? String.length code) eqn:E; auto.
  apply Nat.ltb_lt in E.
  destruct (body code v) as [v'|v'] eqn:B.
  - apply IH. eapply body_inv; eauto.
  - apply body_break in B. destruct B as (-> & _). exact Hv.
Qed.

Lemma final_inv code start0 : inv code start0 (final code start0).
Proof. unfold final, run. apply loop_inv, init_inv. Qed.

(** Enough fuel: the variables [run] returns are those with which the loop
    is left, at the end of the text or at the [break]. *)
Lemma loop_exit code :
  forall fuel v,
    String.length code - i v <= fuel ->
    String.length code <= i (loop fuel code v)
    \/ body code (loop fuel code v) = Break (loop fuel code v).
Proof.
  induction fuel as [|fuel IH]; intros v Hf; simpl.
  - left. lia.
  - destruct (i v <? String.length code) eqn:E.
    + destruct (body code v) as [v'|v'] eqn:B.
      * apply IH. apply body_i_le in B. unfold incr; simpl. lia.
      * pose proof (body_break _ _ _ B) as (-> & _). now right.
    + apply Nat.ltb_ge in E. now left.
Qed.

(** The [break] is taken outside comments only. *)
Lemma final_exit code start0 :
  String.length code <= i (final code start0) \/ type (final code start0) = NONE.
Proof.
  destruct (loop_exit code (String.length code - start0) (init start0)) as [H|H].
  - simpl. lia.
  - now left.
  - right. now apply body_break in H.
Qed.

Lemma substring_none code : forall p, substring p 0 code = EmptyString.
Proof.
  induction code as [|c code IH]; intros p; destruct p; simpl; auto.
Qed.

Lemma substring_step code : forall p n,
    substring p (S n) code
    = match String.get p code with
      | Some c => String c (substring (S p) n code)
      | None => EmptyString
      end.
Proof.
  induction code as [|c code IH]; intros p n.
  - destruct p; reflexivity.
  - destruct p as [|p]; simpl.
    + reflexivity.
    + rewrite IH. destruct (String.get p code); reflexivity.
Qed.

Lemma substring_same code code' : forall n p,
    (forall k, p <= k -> String.get k code' = String.get k code) ->
    substring p n code' = substring p n code.
Proof.
  induction n as [|n IH]; intros p H.
  - now rewrite !substring_none.
  - rewrite !substring_step, (H p (Nat.le_refl p)).
    destruct (String.get p code); [|reflexivity].
    f_equal. apply IH. intros k Hk. apply H. lia.
Qed.

(** An iteration reads the text at [i] and after it, and between the line
    start and the comment start. *)
Lemma body_same code code' start0 v :
  same_from start0 code code' ->
  start0 <= i v -> start0 <= lineStart v ->
  body code' v = body code v.
Proof.
  intros (_ & H) Hi Hl. unfold body, absorb, slice, charAt.
  rewrite (H (i v)), (H (i v + 1)), (H (i v + 2)) by lia.
  rewrite !(substring_same code code' _ (lineStart v))
    by (intros k Hk; apply H; lia).
  reflexivity.
Qed.

Lemma loop_same code code' start0 :
  same_from start0 code code' ->
  forall fuel v, inv code start0 v -> loop fuel code' v = loop fuel code v.
Proof.
  intros Hsame. induction fuel as [|fuel IH]; intros v Hv; simpl; auto.
  destruct Hsame as (Hlen & Hget). rewrite Hlen.
  destruct (i v <? String.length code) eqn:E; auto.
  pose proof Hv as (Hl & Hi & _).
  rewrite (body_same code code' start0 v (conj Hlen Hget) Hi Hl).
  destruct (body code v) as [v'|v'] eqn:B; auto.
  apply IH. apply Nat.ltb_lt in E. eapply body_inv; eauto.
Qed.

End ScannerFacts.

(** * A line comment on a line of its own *)

Section Absorption.

Lemma append_assoc (a b c : string) : ((a ++ b) ++ c = a ++ (b ++ c))%string.
Proof. induction a as [|x a IH]; simpl; congruence. Qed.

Lemma append_length (a b : string) :
  String.length (a ++ b) = String.length a + String.length b.
Proof. induction a as [|c a IH]; simpl; auto. Qed.

Lemma occurs_suffix w : forall a, occurs w (String.length a) (a ++ w).
Proof.
  induction w as [|c w IH]; intros a; simpl; auto. split.
  - pose proof (append_correct2 a (String c w) 0) as H. simpl in H. now rewrite <- H.
  - replace (a ++ String c w)%string with ((a ++ String c "") ++ w)%string
      by (rewrite append_assoc; reflexivity).
    replace (S (String.length a)) with (String.length (a ++ String c ""))
      by (rewrite append_length; simpl; lia).
    apply IH.
Qed.

Lemma occurs_app w1 : forall w2 p code,
    occurs (w1 ++ w2) p code ->
    occurs w1 p code /\ occurs w2 (p + String.length w1) code.
Proof.
  induction w1 as [|c w1 IH]; intros w2 p code H; simpl in *.
  - rewrite Nat.add_0_r. auto.
  - destruct H as (Hc & H). apply IH in H. destruct H as (H1 & H2).
    replace (p + S (String.length w1)) with (S p + String.length w1) by lia. auto.
Qed.

Lemma substring_get code : forall p n c,
    String.get p code = Some c ->
    substring p (S n) code = String c (substring (S p) n code).
Proof.
  induction code as [|d code IH]; intros p n c H.
  - destruct p; discriminate.
  - destruct p as [|p]; simpl in H.
    + inversion H; subst. reflexivity.
    + simpl. rewrite (IH p n c H). reflexivity.
Qed.

Lemma substring_prefix a : forall b, substring 0 (String.length a) (a ++ b) = a.
Proof.
  induction a as [|c a IH]; intros b; simpl.
  - destruct b; reflexivity.
  - now rewrite IH.
Qed.

Lemma substring_all b : substring 0 (String.length b) b = b.
Proof. induction b as [|c b IH]; simpl; congruence. Qed.

Lemma substring_suffix a : forall b,
    substring (String.length a) (String.length b) (a ++ b) = b.
Proof.
  induction a as [|c a IH]; intros b; simpl.
  - apply substring_all.
  - apply IH.
Qed.

Lemma space_not_slash c : is_space c = true -> Ascii.eqb c slash = false.
Proof.
  intros H. destruct (Ascii.eqb c slash) eqn:E; auto.
  apply Ascii.eqb_eq in E. subst. discriminate.
Qed.

(** In state NONE the scan runs over whitespace; the line start stays
    where it was when no line feed is among it. *)
Lemma run_spaces code : forall w v,
    type v = NONE ->
    occurs w (i v) code ->
    all_chars is_space w = true ->
    exists cs ls,
      run code v = run code (mkVars (i v + String.length w) NONE cs ls (out v))
      /\ (all_chars is_blank w = true -> ls = lineStart v).
Proof.
  induction w as [|c w IH]; intros v T Ho Hs.
  - exists (commentStart v), (lineStart v). split; auto.
    destruct v; simpl in *; subst. now rewrite Nat.add_0_r.
  - simpl in Ho, Hs. destruct Ho as (Hc & Ho).
    apply andb_true_iff in Hs. destruct Hs as (Hc' & Hs).
    pose proof (get_Some_lt _ _ _ Hc) as Hlt. apply Nat.ltb_lt in Hlt.
    rewrite run_unfold, Hlt. unfold body. rewrite T. unfold charAt. rewrite Hc.
    simpl is_char. rewrite (space_not_slash _ Hc'). simpl test_space. rewrite Hc'.
    destruct (Ascii.eqb c LF) eqn:E.
    + edestruct (IH (incr (mkVars (i v) NONE (commentStart v) (i v) (out v))))
        as (cs & ls & Hrun & _); auto.
      { simpl. now rewrite Nat.add_1_r. }
      exists cs, ls. split.
      * rewrite Hrun. simpl. do 2 f_equal. lia.
      * simpl. unfold is_blank at 1. rewrite E, andb_false_r. discriminate.
    + edestruct (IH (incr (mkVars (i v) NONE (commentStart v + 1) (lineStart v) (out v))))
        as (cs & ls & Hrun & Hls); auto.
      { simpl. now rewrite Nat.add_1_r. }
      exists cs, ls. split.
      * rewrite Hrun. simpl. do 2 f_equal. lia.
      * simpl. intros Hb. apply andb_true_iff in Hb. destruct Hb as (_ & Hb).
        now apply Hls.
Qed.

(** In state NONE a line feed moves the line start. *)
Lemma run_newline code v :
  type v = NONE ->
  String.get (i v) code = Some LF ->
  run code v = run code (mkVars (i v + 1) NONE (commentStart v) (i v) (out v)).
Proof.
  intros T Hc.
  pose proof (get_Some_lt _ _ _ Hc) as Hlt. apply Nat.ltb_lt in Hlt.
  rewrite run_unfold, Hlt. unfold body. rewrite T. unfold charAt. rewrite Hc.
  reflexivity.
Qed.

(** In state NONE two slashes open a line comment. *)
Lemma run_open_line code v :
  type v = NONE ->
  String.get (i v) code = Some slash ->
  String.get (S (i v)) code = Some slash ->
  run code v = run code (mkVars (i v + 2) SINGLE (i v) (lineStart v) (out v)).
Proof.
  intros T Hc Hd.
  pose proof (get_Some_lt _ _ _ Hc) as Hlt. apply Nat.ltb_lt in Hlt.
  rewrite run_unfold, Hlt. unfold body. rewrite T. unfold charAt.
  rewrite Hc, Nat.add_1_r, Hd. simpl. unfold incr. simpl.
  do 2 f_equal. lia.
Qed.

(** In state SINGLE the scan runs over what does not end the line. *)
Lemma run_line_body code : forall w v,
    type v = SINGLE ->
    occurs w (i v) code ->
    all_chars not_line_end w = true ->
    run code v
    = run code (mkVars (i v + String.length w) SINGLE (commentStart v)
                       (lineStart v) (out v)).
Proof.
  induction w as [|c w IH]; intros v T Ho Hs.
  - destruct v; simpl in *; subst. now rewrite Nat.add_0_r.
  - simpl in Ho, Hs. destruct Ho as (Hc & Ho).
    apply andb_true_iff in Hs. destruct Hs as (Hc' & Hs).
    pose proof (get_Some_lt _ _ _ Hc) as Hlt. apply Nat.ltb_lt in Hlt.
    rewrite run_unfold, Hlt. unfold body. rewrite T. unfold charAt. rewrite Hc.
    simpl is_char. unfold not_line_end in Hc'. apply negb_true_iff in Hc'.
    rewrite Hc'. rewrite (IH (incr v)); auto.
    + simpl. do 2 f_equal. lia.
    + simpl. now rewrite Nat.add_1_r.
Qed.

(** In state SINGLE a line feed closes the comment; when the line start is
    a whitespace character before the comment, the span starts right after
    it. *)
Lemma run_close_line code v c :
  type v = SINGLE ->
  String.get (i v) code = Some LF ->
  lineStart v < commentStart v ->
  String.get (lineStart v) code = Some c ->
  is_space c = true ->
  run code v
  = run code (mkVars (i v + 2) NONE (lineStart v + 1) (i v)
                     (out v ++ [mkRange (lineStart v + 1) (i v + 1)])).
Proof.
  intros T Hc Hl Hs Hsp.
  pose proof (get_Some_lt _ _ _ Hc) as Hlt. apply Nat.ltb_lt in Hlt.
  rewrite run_unfold, Hlt. unfold body. rewrite T. unfold charAt. rewrite Hc.
  simpl is_char. simpl orb.
  assert (A : absorb match_leading_space code v = lineStart v + 1).
  { unfold absorb. apply Nat.ltb_lt in Hl. rewrite Hl. apply Nat.ltb_lt in Hl.
    unfold slice.
    replace (commentStart v - lineStart v) with (S (commentStart v - lineStart v - 1))
      by lia.
    rewrite (substring_get _ _ _ _ Hs). simpl. now rewrite Hsp. }
  rewrite A. unfold incr. simpl. do 2 f_equal. lia.
Qed.

Lemma body_out code v v' : body code v = Next v' -> exists more, out v' = (out v ++ more)%list.
Proof.
  unfold body. intros H.
  repeat match type of H with
         | context [match ?x with _ => _ end] => destruct x
         end; inversion H; subst; simpl;
    solve [now exists [] ; rewrite app_nil_r | eexists; reflexivity
          | exists []; now rewrite app_nil_r].
Qed.

(** What was pushed stays: the loop only appends to [out]. *)
Lemma loop_out code : forall fuel v, exists more, out (loop fuel code v) = (out v ++ more)%list.
Proof.
  induction fuel as [|fuel IH]; intros v; simpl.
  - exists []. now rewrite app_nil_r.
  - destruct (i v <? String.length code); [|exists []; now rewrite app_nil_r].
    destruct (body code v) as [v'|v'] eqn:B.
    + apply body_out in B. destruct B as (m & Hm).
      destruct (IH (incr v')) as (m' & Hm').
      exists (m ++ m')%list. rewrite Hm'. simpl. rewrite Hm. now rewrite app_assoc.
    + apply body_break in B. destruct B as (-> & _).
      exists []. now rewrite app_nil_r.
Qed.

Lemma blank_is_space w : all_chars is_blank w = true -> all_chars is_space w = true.
Proof.
  induction w as [|c w IH]; simpl; auto.
  intros H. apply andb_true_iff in H. destruct H as (Hc & Hw).
  unfold is_blank in Hc. apply andb_true_iff in Hc. destruct Hc as (Hc & _).
  rewrite Hc. simpl. auto.
Qed.

(** A comment line read from a state NONE whose line start is a line feed:
    the scan stands [k] characters into the line (what lies before it on the
    line does not matter), and what follows is blank up to the comment.  The
    comment's span starts right after the line start and ends after the line
    feed at [e] that closes it; the scan goes on at [e + 2], with [e] as the
    line start. *)
Lemma run_line code v k indent body0 :
  type v = NONE ->
  i v = lineStart v + 1 + k ->
  String.get (lineStart v) code = Some LF ->
  occurs (indent ++ "//" ++ body0 ++ nl) (i v) code ->
  all_chars is_blank indent = true ->
  all_chars not_line_end body0 = true ->
  run code v
  = run code
      (mkVars (i v + String.length indent + 2 + String.length body0 + 2) NONE
              (lineStart v + 1)
              (i v + String.length indent + 2 + String.length body0)
              (out v ++ [mkRange (lineStart v + 1)
                                 (i v + String.length indent + 2
                                  + String.length body0 + 1)])).
Proof.
  intros T Hi Hls O Hind Hbody.
  apply occurs_app in O. destruct O as (Oind & O).
  apply occurs_app in O. destruct O as (Oss & O).
  apply occurs_app in O. destruct O as (Obody & Onl).
  simpl in Oss, Onl. destruct Oss as (Os1 & Os2 & _). destruct Onl as (Onl & _).
  simpl String.length in *.
  destruct (run_spaces code indent v T Oind (blank_is_space _ Hind))
    as (cs & ls & R & L).
  rewrite R. specialize (L Hind). subst ls.
  rewrite run_open_line; auto. simpl.
  rewrite (run_line_body code body0); auto. simpl.
  rewrite (run_close_line code _ LF); auto; simpl; lia.
Qed.

(** Consecutive comment lines, read from the state in which the scan is
    left by the line before them: one character into the first of them. *)
Lemma run_lines code : forall ls v,
    type v = NONE ->
    i v = lineStart v + 2 ->
    String.get (lineStart v) code = Some LF ->
    occurs (comment_lines ls) (lineStart v + 1) code ->
    Forall own_line ls ->
    exists cs,
      run code v
      = run code
          (mkVars (lineStart v + String.length (comment_lines ls) + 2) NONE cs
                  (lineStart v + String.length (comment_lines ls))
                  (out v ++ line_spans (lineStart v + 1) ls)).
Proof.
  induction ls as [|[indent body0] ls IH]; intros v T Hi Hls O Hown.
  - exists (commentStart v). simpl. rewrite Nat.add_0_r, app_nil_r, <- Hi, <- T.
    now destruct v.
  - inversion Hown as [|? ? (Hne & Hind & Hbody) Hown']; subst. simpl in Hne, Hind, Hbody.
    simpl comment_lines in O. apply occurs_app in O. destruct O as (Oline & Orest).
    destruct indent as [|c indent]; [congruence|].
    simpl in Hind. apply andb_true_iff in Hind. destruct Hind as (_ & Hind).
    unfold comment_line in Oline. simpl in Oline. destruct Oline as (_ & Oline).
    rewrite (run_line code v 1 indent body0 T);
      [ | lia | exact Hls | | exact Hind | exact Hbody ].
    2:{ rewrite Hi. replace (lineStart v + 2) with (S (lineStart v + 1)) by lia.
        exact Oline. }
    assert (L : String.length (comment_line (String c indent, body0))
                = String.length indent + String.length body0 + 4).
    { unfold comment_line. simpl. rewrite append_length. simpl.
      rewrite append_length. simpl. lia. }
    match goal with
    | |- context [run code ?v1] => destruct (IH v1) as (cs & R); auto
    end.
    + simpl. apply occurs_app in Oline. destruct Oline as (_ & Oline).
      simpl in Oline. destruct Oline as (_ & _ & Oline).
      apply occurs_app in Oline. destruct Oline as (_ & Oline).
      simpl in Oline. destruct Oline as (Oline & _).
      rewrite Hi. rewrite <- Oline. f_equal. lia.
    + simpl. rewrite L in Orest.
      replace (i v + String.length indent + 2 + String.length body0 + 1)
        with (lineStart v + 1 + (String.length indent + String.length body0 + 4))
        by lia.
      exact Orest.
    + exists cs. rewrite R. cbn [i lineStart out comment_lines line_spans].
      rewrite append_length, L.
      f_equal. f_equal.
      * lia.
      * lia.
      * rewrite <- app_assoc. simpl. f_equal. f_equal.
        -- f_equal. lia.
        -- f_equal. lia.
Qed.





(** Two comment lines, scanned from the end of the tag name: one span for
    each line. *)
Example two_comment_lines_spans :
  two_comment_lines
  = ("<div" ++ "" ++ nl ++ comment_lines [("  ", " a"); (" ", " b")]
     ++ "  id=" ++ dq ++ "x" ++ dq ++ nl ++ "/>")%string
  /\ parseMaybeComments two_comment_lines 4 = [mkRange 5 12; mkRange 12 18]
  /\ line_spans 5 [("  ", " a"); (" ", " b")] = [mkRange 5 12; mkRange 12 18].
Proof. repeat split; reflexivity. Qed.

(** Removing the characters of [b] from [a ++ b ++ c] leaves [a ++ c]. *)
Lemma apply_remove_middle a b c :
  apply_remove (a ++ b ++ c)
               (mkRange (String.length a) (String.length a + String.length b))
  = (a ++ c)%string.
Proof.
  unfold apply_remove. cbn [start end_]. rewrite substring_prefix.
  rewrite <- (append_assoc a b c), <- append_length.
  replace (String.length ((a ++ b) ++ c) - String.length (a ++ b))
    with (String.length c) by (rewrite (append_length (a ++ b)); lia).
  now rewrite substring_suffix.
Qed.

(** Every span found from a scan start is removed by the opening-tag rule. *)
Lemma remove_comments_In code r k : forall attrs i0,
    In k (i0 :: map end_ attrs) ->
    In r (parseMaybeComments code k) ->
    In (ms_remove (start r) (end_ r)) (remove_comments code i0 attrs).
Proof.
  induction attrs as [|a attrs IH]; intros i0 Hk Hr; simpl in *.
  - destruct Hk as [<-|[]].
    apply (in_map (fun c => ms_remove (start c) (end_ c))) in Hr. exact Hr.
  - apply in_or_app. destruct Hk as [<-|Hk].
    + left. apply (in_map (fun c => ms_remove (start c) (end_ c))) in Hr. exact Hr.
    + right. apply IH; auto.
Qed.

End Absorption.

(** Where the scan goes on after a line comment: the iteration that closes
    the comment at the line end [i] pushes a span that ends at [i + 1] and
    leaves [i] at that end, so the next character read, after the [i++] of
    the loop header, is the one at [i + 2]. *)
Lemma close_line_resumes code v :
  type v = SINGLE ->
  is_line_end (charAt code (i v)) = true ->
  exists s v',
    body code v = Next v'
    /\ out v' = (out v ++ [mkRange s (i v + 1)])%list
    /\ type v' = NONE
    /\ i (incr v') = i v + 2.
Proof.
  intros T H. unfold body. rewrite T. unfold is_line_end in H. rewrite H.
  eexists. eexists. split; [reflexivity|]. simpl. repeat split. lia.
Qed.

(** * The scanner's claims *)

(** C2, at the two sibling comments of [sibling_line_comments] scanned from
    the end of the tag name (offset 4).  After four iterations the loop is at
    the line feed (offset 9) that closes the first comment.  The fifth
    iteration pushes the span 5..10, sets [i] to the span's end and runs the
    [i++] of the loop header, so the next character read is the one at offset
    11: the [/] at offset 10 that opens the second comment is passed over, and
    the scan returns the first span only. *)
Theorem line_comment_resumes_past_end :
  loop 4 sibling_line_comments (init 4)
  = {| i := 9; type := SINGLE; commentStart := 5; lineStart := 4; out := [] |}
  /\ loop 5 sibling_line_comments (init 4)
     = {| i := 11; type := NONE; commentStart := 5; lineStart := 9;
          out := [mkRange 5 10] |}
  /\ charAt sibling_line_comments 10 = Some slash
  /\ charAt sibling_line_comments 11 = Some slash
  /\ parseMaybeComments sibling_line_comments 4 = [mkRange 5 10].
Proof. repeat split; reflexivity. Qed.

(** C8: when the scan is left inside a line or block comment, the end of the
    text was reached, the open comment starts inside the text, and every span
    returned ends at or before the start of that open comment and ends with
    the terminator of its own comment: the open comment gets no span.  The
    scan returns its list in every case, [parseMaybeComments] being total. *)
Theorem unterminated_comment_gets_no_span (code : string) (start0 : nat) :
  type (final code start0) <> NONE ->
  String.length code <= i (final code start0)
  /\ start0 <= commentStart (final code start0)
  /\ commentStart (final code start0) < String.length code
  /\ Forall (fun r => end_ r <= commentStart (final code start0)
                      /\ end_ r <= String.length code
                      /\ terminated code r)
            (parseMaybeComments code start0).
Proof.
  intros T.
  destruct (final_inv code start0) as (_ & _ & Hc & Ho & _).
  destruct (Hc T) as (Hc1 & Hc2 & Hc3 & Hc4).
  split; [|split; [exact Hc1|split; [exact Hc3|]]].
  - destruct (final_exit code start0) as [H|H]; [exact H|contradiction].
  - unfold parseMaybeComments.
    apply Forall_forall. intros r Hr.
    rewrite Forall_forall in Hc4, Ho.
    destruct (Ho r Hr) as ((_ & _ & Hlen) & _ & Ht).
    auto.
Qed.

Lemma unterminated_comment_gets_no_span_witness :
  type (final open_line_comment 0) <> NONE
  /\ parseMaybeComments open_line_comment 0 = [mkRange 0 7]
  /\ Forall (fun r => end_ r <= commentStart (final open_line_comment 0)
                      /\ end_ r <= String.length open_line_comment
                      /\ terminated open_line_comment r)
            (parseMaybeComments open_line_comment 0).
Proof.
  split; [vm_compute; discriminate|].
  split; [reflexivity|].
  apply (unterminated_comment_gets_no_span open_line_comment 0).
  vm_compute; discriminate.
Defined.

(** C10 as stated fails on [two_block_comments]: scanned from the end of the
    tag name, the two block comments of the line give the spans 3..12 and
    3..21, which start at the same offset and overlap. *)
Lemma spans_not_well_formed :
  ~ well_formed two_block_comments 2 (parseMaybeComments two_block_comments 2).
Proof.
  intros (_ & Hs & _).
  assert (E : parseMaybeComments two_block_comments 2 = [mkRange 3 12; mkRange 3 21])
    by reflexivity.
  rewrite E in Hs. inversion Hs as [|a l _ Hall]; subst.
  inversion Hall as [|b l' Hlt _]; subst. simpl in Hlt. lia.
Qed.

(** C10, amended: every span returned by [parseMaybeComments code start]
    satisfies [start <= span.start < span.end <= code.length], and the spans
    appear in strictly increasing order of their end offsets.  The scan never
    looks backward past the start offset: a text of the same length that
    holds the same characters from the start offset on gives the same spans. *)
Theorem spans_in_bounds_ends_increasing (code : string) (start0 : nat) :
  Forall (in_bounds code start0) (parseMaybeComments code start0)
  /\ ends_increasing (parseMaybeComments code start0)
  /\ (forall code',
         same_from start0 code code' ->
         parseMaybeComments code' start0 = parseMaybeComments code start0).
Proof.
  destruct (final_inv code start0) as (_ & _ & _ & Ho & Hsorted).
  split; [|split; [exact Hsorted|]].
  - unfold parseMaybeComments. eapply Forall_impl; [|exact Ho].
    simpl. intros r (H & _). exact H.
  - intros code' Hsame. unfold parseMaybeComments, final, run.
    destruct Hsame as (Hlen & Hget). rewrite Hlen.
    rewrite (loop_same code code' start0 (conj Hlen Hget)); [reflexivity|].
    apply init_inv.
Qed.

Lemma spans_in_bounds_ends_increasing_witness :
  same_from 2 two_block_comments two_block_comments_B
  /\ parseMaybeComments two_block_comments_B 2
     = parseMaybeComments two_block_comments 2.
Proof.
  assert (H : same_from 2 two_block_comments two_block_comments_B).
  { split; [reflexivity|].
    intros k Hk. destruct k as [|[|k]]; [lia|lia|reflexivity]. }
  split; [exact H|].
  destruct (spans_in_bounds_ends_increasing two_block_comments 2) as (_ & _ & Hsame).
  exact (Hsame _ H).
Defined.

(** * Properties of the rewrite rules *)

Section EngineFacts.

Lemma is_markup_spec c :
  is_markup c = true
  <-> (c = "<"%char \/ c = ">"%char \/ c = "&"%char \/ c = dquote).
Proof.
  unfold is_markup. simpl. rewrite !orb_true_iff, !Nat.eqb_eq. split.
  - intros H. pose proof (ascii_nat_embedding c) as E.
    destruct H as [H|[H|[H|[H|H]]]]; try discriminate;
      rewrite H in E; rewrite <- E; auto.
  - intros [H|[H|[H|H]]]; subst; auto.
Qed.

Lemma test_markup_spec text : test_markup text = true <-> contains_markup text.
Proof.
  unfold test_markup, contains_markup. rewrite existsb_exists.
  split; intros (c & Hin & Hc); exists c; split; auto; now apply is_markup_spec.
Qed.

(** Wrapping a text changes it. *)
Lemma wrapped_differs text : ("${`" ++ text ++ "`}")%string <> text.
Proof.
  intros H. apply (f_equal String.length) in H.
  rewrite !append_length in H. simpl in H. lia.
Qed.







(** Only the opening tag of an element sets the flag. *)
Lemma walk_jsx options ns :
  forall state,
    jsx (snd (walk (mkVisitor (Program_exit options) (JSXOpeningElement options)
                      (JSXClosingElement options) (JSXOpeningFragment options)
                      JSXClosingFragment JSXSpreadAttribute JSXText
                      JSXExpressionContainer) ns state))
    = jsx state || existsb is_opening_element ns.
Proof.
  induction ns as [|n ns IH]; intros state; simpl.
  - now rewrite orb_false_r.
  - destruct n; simpl;
      match goal with
      | |- context [walk ?v ns ?s] =>
          specialize (IH s); destruct (walk v ns s) as [es' s'] eqn:W
      end; simpl in *; rewrite IH; simpl; auto.
    now rewrite orb_true_r.
Qed.


(** A component closing tag whose name is an identifier is rendered with
    that name, or tersely, and closed by a backtick at the root. *)
Lemma JSXClosingElement_identifier options p loc n :
  closing_name (node p) = JSXIdentifier loc n ->
  test_component n = true ->
  JSXClosingElement options p =
  [replaceWithString Self
     (let str := ("</"
                  ++ match terse options with
                     | Some true => "/"
                     | _ => "${" ++ n ++ "}"
                     end
                  ++ ">")%string in
      if isRootElement p then (str ++ "`")%string else str)].
Proof.
  intros Hn Hc. unfold JSXClosingElement. rewrite Hn. simpl. rewrite Hc.
  destruct (terse options) as [[|]|]; reflexivity.
Qed.

(** Where the removals of the opening-tag rule come from. *)
Lemma remove_comments_inv code e : forall attrs i0,
    In e (remove_comments code i0 attrs) ->
    exists k r,
      In k (i0 :: map end_ attrs)
      /\ In r (parseMaybeComments code k)
      /\ e = ms_remove (start r) (end_ r).
Proof.
  induction attrs as [|a attrs IH]; intros i0 H; simpl in H.
  - apply in_map_iff in H. destruct H as (r & <- & Hr).
    exists i0, r. simpl. auto.
  - apply in_app_or in H. destruct H as [H|H].
    + apply in_map_iff in H. destruct H as (r & <- & Hr).
      exists i0, r. simpl. auto.
    + apply IH in H. destruct H as (k & r & Hk & Hr & ->).
      exists k, r. simpl. auto.
Qed.

(** No edit of the opening-tag rule reaches before the end of the tag
    name, when the attributes end after the name and every comment of the
    parser's list is at least as long as its opening marker. *)
Lemma opening_edits_after_name options p state e r :
  Forall (fun a => end_ (name_loc (opening_name (node p))) <= end_ a)
         (attributes (node p)) ->
  Forall (fun c => start (comment_loc c) + 2 <= end_ (comment_loc c)) (comments p) ->
  In e (fst (JSXOpeningElement options p state)) ->
  edit_range e = Some r ->
  end_ (name_loc (opening_name (node p))) <= start r.
Proof.
  intros Hattrs Hcomments He Hr.
  unfold JSXOpeningElement in He. cbv zeta in He. unfold fst in He.
  apply in_app_or in He. destruct He as [He|He].
  { destruct (isIdent _); simpl in He;
      repeat (destruct He as [<-|He]; [discriminate|]); contradiction. }
  apply in_app_or in He. destruct He as [He|He].
  { destruct (attributes (node p)) as [|a attrs] eqn:A; [contradiction|].
    apply remove_comments_inv in He. destruct He as (k & r' & Hk & Hr' & ->).
    simpl in Hr. inversion Hr; subst. simpl.
    pose proof (final_inv (original p) k) as (_ & _ & _ & Ho & _).
    unfold parseMaybeComments in Hr'. rewrite Forall_forall in Ho.
    destruct (Ho r' Hr') as ((Hlow & _) & _).
    destruct Hk as [<-|Hk]; [exact Hlow|].
    apply in_map_iff in Hk. destruct Hk as (a' & <- & Ha').
    rewrite Forall_forall in Hattrs. specialize (Hattrs a' Ha'). lia. }
  apply in_app_or in He. destruct He as [He|He].
  { destruct (isRootElement p); [|contradiction].
    destruct He as [<-|He]; [discriminate|].
    destruct (selfClosing (node p)); [|contradiction].
    destruct He as [<-|[]]. discriminate. }
  unfold comments_to_html in He. apply in_flat_map in He.
  destruct He as (c & Hc & He).
  rewrite Forall_forall in Hcomments. specialize (Hcomments c Hc).
  destruct ((end_ (name_loc (opening_name (node p))) <=? start (comment_loc c))
            && (end_ (comment_loc c) <? end_ (opening_loc (node p)))) eqn:E;
    [|contradiction].
  apply andb_true_iff in E. destruct E as (E & _). apply Nat.leb_le in E.
  destruct (negb _); [|contradiction].
  unfold commentToHtml in He. simpl in He.
  destruct He as [<-|He]; [simpl in Hr; inversion Hr; subst; simpl; lia|].
  destruct (kind c); destruct He as [<-|[]]; simpl in Hr; inversion Hr; subst;
    simpl; lia.
Qed.



End EngineFacts.

(** * The rewrite rules' claims *)




(** C4, on [fragment_only] with [import: 'htm/preact']: the root fragment
    opens a template under the tag name, yet its handler leaves the flag as
    it was, so no import of the tag is prepended.  A walk sets the flag iff it
    reaches the opening tag of an element. *)
Theorem fragment_only_gets_no_import :
  transform import_htm fragment_only
  = Return [replaceWithString Self "html`";
            replaceWithString Self "hi";
            replaceWithString Self "`"]
  /\ Program_exit import_htm (mkState true)
     = [prependString (Get "body") ("import { html } from 'htm/preact';" ++ nl)%string]
  /\ (forall ns,
         match transformJsxToHtmLite import_htm with
         | Return p =>
             jsx (snd (walk (visitor_of p) ns (mkState false)))
             = existsb is_opening_element ns
         | Throw _ => False
         end).
Proof.
  split; [reflexivity|]. split; [reflexivity|].
  intros ns. simpl. now rewrite walk_jsx.
Qed.

(** C5: a text is replaced by the substitution that wraps it iff it holds
    one of the four characters, and by itself iff it holds none. *)
Theorem JSXText_wraps_markup (p : path text) :
  (contains_markup (value_ (node p))
   <-> JSXText p = [replaceWithString Self ("${`" ++ value_ (node p) ++ "`}")%string])
  /\ (~ contains_markup (value_ (node p))
      <-> JSXText p = [replaceWithString Self (value_ (node p))]).
Proof.
  unfold JSXText. rewrite <- test_markup_spec.
  destruct (test_markup (value_ (node p))) eqn:E; split; split; intros H;
    try reflexivity; try congruence.
  all: inversion H as [H'];
    first [now apply wrapped_differs in H'
          | symmetry in H'; now apply wrapped_differs in H'].
Qed.

(** C6, on [member_closing_path] without [terse]: the closing tag
    [</Ctx.Provider>] of a root element is a component closing tag, and it is
    replaced by a text that names [undefined], the handler reading the [name]
    property that a member access does not have. *)
Theorem member_closing_tag_loses_its_name :
  isIdent (closing_name (node member_closing_path)) = true
  /\ name_name (closing_name (node member_closing_path)) = VUndefined
  /\ JSXClosingElement default_options member_closing_path
     = [replaceWithString Self "</${undefined}>`"].
Proof. repeat split; reflexivity. Qed.




(** C9, on [comment_before_tag_end]: the element ends at offset 21 and the
    text after it belongs to no JSX node, yet the scan after the attribute
    passes over the [>] that follows the block comment and goes on into the
    line comment of the program: the handler removes the offsets 11..27, up
    to the end of the text. *)
Theorem removal_reaches_past_the_tag :
  fst (JSXOpeningElement default_options comment_before_tag_end_path (mkState false))
  = [ms_remove 13 20; ms_remove 11 27;
     prependString Self "html`"; appendString Self "`"]
  /\ end_ (opening_loc (node comment_before_tag_end_path)) = 21
  /\ String.length comment_before_tag_end = 27
  /\ charAt comment_before_tag_end 20 = Some ">"%char
  /\ apply_remove comment_before_tag_end (mkRange 11 27)
     = ("<div a=" ++ dq ++ "b" ++ dq ++ " ")%string.
Proof. repeat split; reflexivity. Qed.


(** * More of the scanner *)

Section ScanShapes.

Lemma get_None_ge (code : string) :
  forall k, String.length code <= k -> String.get k code = None.
Proof.
  induction code as [|c code IH]; intros k H.
  - destruct k; reflexivity.
  - destruct k as [|k]; simpl in *; [lia|]. apply IH. lia.
Qed.

Lemma occurs_join w1 : forall w2 p code,
    occurs w1 p code -> occurs w2 (p + String.length w1) code ->
    occurs (w1 ++ w2) p code.
Proof.
  induction w1 as [|c w1 IH]; intros w2 p code H1 H2; simpl in *.
  - now rewrite Nat.add_0_r in H2.
  - destruct H1 as (Hc & H1). split; auto. apply IH; auto.
    now replace (S p + String.length w1) with (p + S (String.length w1)) by lia.
Qed.

Lemma space_not_star c : is_space c = true -> Ascii.eqb c star = false.
Proof.
  intros H. destruct (Ascii.eqb c star) eqn:E; auto.
  apply Ascii.eqb_eq in E. subst. discriminate.
Qed.

Lemma not_space_not_LF c : is_space c = false -> Ascii.eqb c LF = false.
Proof.
  intros H. destruct (Ascii.eqb c LF) eqn:E; auto.
  apply Ascii.eqb_eq in E. subst. discriminate.
Qed.

(** In state NONE, at a text that [ends_scan], the loop is left with the
    spans it had. *)
Lemma run_stop code v tail :
  type v = NONE ->
  occurs tail (i v) code ->
  String.length code = i v + String.length tail ->
  ends_scan tail = true ->
  out (run code v) = out v.
Proof.
  intros T O Hlen He.
  destruct tail as [|c t].
  - rewrite run_unfold.
    assert (E : (i v <? String.length code) = false)
      by (apply Nat.ltb_ge; simpl in Hlen; lia).
    now rewrite E.
  - simpl in O. destruct O as (Hc & O).
    pose proof (get_Some_lt _ _ _ Hc) as Hlt. apply Nat.ltb_lt in Hlt.
    rewrite run_unfold, Hlt. unfold body. rewrite T. unfold charAt. rewrite Hc.
    simpl is_char. simpl in He.
    destruct (Ascii.eqb c slash) eqn:Ec.
    + destruct t as [|d t'].
      * simpl in Hlen.
        rewrite (get_None_ge code (i v + 1)) by lia. simpl.
        rewrite run_unfold.
        assert (E : (i (incr v) <? String.length code) = false)
          by (apply Nat.ltb_ge; simpl; lia).
        now rewrite E.
      * simpl in O. destruct O as (Hd & _).
        apply andb_true_iff in He. destruct He as (He & Hstar).
        apply andb_true_iff in He. destruct He as (Hsp & Hsl).
        apply negb_true_iff in Hstar, Hsp, Hsl.
        replace (i v + 1) with (S (i v)) by lia. rewrite Hd. simpl is_char.
        rewrite Hsl, Hstar.
        pose proof (get_Some_lt _ _ _ Hd) as Hlt'. apply Nat.ltb_lt in Hlt'.
        rewrite run_unfold. simpl i. replace (i v + 1) with (S (i v)) by lia.
        rewrite Hlt'. unfold body. simpl type. rewrite T. unfold charAt. simpl i.
        replace (i v + 1) with (S (i v)) by lia.
        rewrite Hd. simpl is_char. rewrite Hsl, (not_space_not_LF _ Hsp).
        simpl test_space. rewrite Hsp. reflexivity.
    + apply negb_true_iff in He.
      rewrite (not_space_not_LF _ He). simpl test_space. rewrite He. reflexivity.
Qed.

(** In state NONE a slash and a star open a block comment. *)
Lemma run_open_block code v :
  type v = NONE ->
  String.get (i v) code = Some slash ->
  String.get (S (i v)) code = Some star ->
  run code v = run code (mkVars (i v + 2) MULTI (i v) (lineStart v) (out v)).
Proof.
  intros T Hc Hd.
  pose proof (get_Some_lt _ _ _ Hc) as Hlt. apply Nat.ltb_lt in Hlt.
  rewrite run_unfold, Hlt. unfold body. rewrite T. unfold charAt.
  rewrite Hc, Nat.add_1_r, Hd. simpl. unfold incr. simpl.
  do 2 f_equal. lia.
Qed.

(** In state MULTI the scan runs over a text that holds no closing. *)
Lemma run_block_body code : forall w v,
    type v = MULTI ->
    occurs (w ++ "*/") (i v) code ->
    no_close w = true ->
    run code v
    = run code (mkVars (i v + String.length w) MULTI (commentStart v)
                       (lineStart v) (out v)).
Proof.
  induction w as [|c w IH]; intros v T Ho Hs.
  - destruct v; simpl in *; subst. now rewrite Nat.add_0_r.
  - simpl in Ho. destruct Ho as (Hc & Ho).
    simpl in Hs. apply andb_true_iff in Hs. destruct Hs as (Hc' & Hs).
    apply negb_true_iff in Hc'.
    pose proof (get_Some_lt _ _ _ Hc) as Hlt. apply Nat.ltb_lt in Hlt.
    rewrite run_unfold, Hlt. unfold body. rewrite T. unfold charAt. rewrite Hc.
    simpl is_char.
    assert (E : Ascii.eqb c star && is_char (String.get (i v + 1) code) slash = false).
    { destruct (Ascii.eqb c star) eqn:Ec; [|reflexivity]. simpl in *.
      replace (i v + 1) with (S (i v)) by lia.
      destruct w as [|d w']; simpl in Ho; destruct Ho as (Hd & _); rewrite Hd; simpl.
      - reflexivity.
      - exact Hc'. }
    rewrite E. rewrite (IH (incr v)); auto.
    + simpl. do 2 f_equal. lia.
    + simpl. now rewrite Nat.add_1_r.
Qed.

(** In state MULTI the closing ends the comment; the span takes in a line
    end that follows, and the scan goes on one character past the span. *)
Lemma run_close_block code v :
  type v = MULTI ->
  String.get (i v) code = Some star ->
  String.get (S (i v)) code = Some slash ->
  run code v
  = run code
      (let e := if is_line_end (charAt code (i v + 2)) then i v + 3 else i v + 2 in
       mkVars (e + 1) NONE (absorb match_newline_space code v) (lineStart v)
              (out v ++ [mkRange (absorb match_newline_space code v) e])).
Proof.
  intros T Hc Hd.
  pose proof (get_Some_lt _ _ _ Hc) as Hlt. apply Nat.ltb_lt in Hlt.
  rewrite run_unfold, Hlt. unfold body. rewrite T. unfold charAt.
  rewrite Hc, Nat.add_1_r, Hd. simpl is_char. simpl andb. cbv zeta.
  unfold is_line_end, charAt.
  destruct (is_char (String.get (i v + 2) code) LF
            || is_char (String.get (i v + 2) code) CR);
    unfold incr; simpl; [|reflexivity].
  now replace (i v + 2 + 1) with (i v + 3) by lia.
Qed.

(** The start of a block comment's span: after a line feed and blanks, the
    offset after the line feed. *)
Lemma absorb_block_line code v indent :
  String.get (lineStart v) code = Some LF ->
  occurs indent (lineStart v + 1) code ->
  all_chars is_blank indent = true ->
  commentStart v = lineStart v + 1 + String.length indent ->
  absorb match_newline_space code v = lineStart v + 1.
Proof.
  intros Hl Ho Hb Hc. unfold absorb.
  assert (E : (lineStart v <? commentStart v) = true) by (apply Nat.ltb_lt; lia).
  rewrite E. unfold slice.
  replace (commentStart v - lineStart v) with (S (String.length indent)) by lia.
  rewrite (substring_get _ _ _ _ Hl).
  destruct indent as [|c indent]; simpl in *.
  - rewrite substring_none. simpl. lia.
  - destruct Ho as (Hc' & _). replace (lineStart v + 1) with (S (lineStart v)) in Hc' by lia.
    rewrite (substring_get _ _ _ _ Hc'). simpl.
    apply andb_true_iff in Hb. destruct Hb as (Hb & _).
    unfold is_blank in Hb. apply andb_true_iff in Hb. destruct Hb as (Hb & _).
    now rewrite Hb.
Qed.

(** The start of a block comment's span on the line of the scan start: the
    comment's own start. *)
Lemma absorb_block_inline code v blanks :
  occurs blanks (lineStart v) code ->
  all_chars is_blank blanks = true ->
  commentStart v = lineStart v + String.length blanks ->
  absorb match_newline_space code v = commentStart v.
Proof.
  intros Ho Hb Hc. unfold absorb.
  destruct (lineStart v <? commentStart v) eqn:E; [|reflexivity].
  apply Nat.ltb_lt in E. unfold slice.
  destruct blanks as [|c blanks]; simpl in *; [lia|].
  destruct Ho as (Hc' & _).
  replace (commentStart v - lineStart v) with (S (String.length blanks)) by lia.
  rewrite (substring_get _ _ _ _ Hc').
  apply andb_true_iff in Hb. destruct Hb as (Hb & _).
  unfold is_blank in Hb. apply andb_true_iff in Hb. destruct Hb as (_ & Hb).
  apply negb_true_iff in Hb. unfold match_newline_space. rewrite Hb.
  destruct (substring _ _ _); reflexivity.
Qed.

(** A line end closes a line comment, a carriage return as a line feed. *)
Lemma run_close_line_end code v c e :
  type v = SINGLE ->
  String.get (i v) code = Some e ->
  not_line_end e = false ->
  lineStart v < commentStart v ->
  String.get (lineStart v) code = Some c ->
  is_space c = true ->
  run code v
  = run code (mkVars (i v + 2) NONE (lineStart v + 1) (i v)
                     (out v ++ [mkRange (lineStart v + 1) (i v + 1)])).
Proof.
  intros T Hc He Hl Hs Hsp.
  pose proof (get_Some_lt _ _ _ Hc) as Hlt. apply Nat.ltb_lt in Hlt.
  rewrite run_unfold, Hlt. unfold body. rewrite T. unfold charAt. rewrite Hc.
  simpl is_char. unfold not_line_end in He. apply negb_false_iff in He. rewrite He.
  assert (A : absorb match_leading_space code v = lineStart v + 1).
  { unfold absorb. apply Nat.ltb_lt in Hl. rewrite Hl. apply Nat.ltb_lt in Hl.
    unfold slice.
    replace (commentStart v - lineStart v) with (S (commentStart v - lineStart v - 1))
      by lia.
    rewrite (substring_get _ _ _ _ Hs). simpl. now rewrite Hsp. }
  rewrite A. unfold incr. simpl. do 2 f_equal. lia.
Qed.

End ScanShapes.

Section ScanResults.

Lemma length3 (a b c : string) :
  String.length (a ++ b ++ c) = String.length a + String.length b + String.length c.
Proof. rewrite !append_length. lia. Qed.

(** Whitespace and then a text that [ends_scan]: no span. *)
Lemma no_comment_no_span pre ws tail :
  all_chars is_space ws = true ->
  ends_scan tail = true ->
  parseMaybeComments (pre ++ ws ++ tail) (String.length pre) = [].
Proof.
  intros Hws Ht.
  set (code := (pre ++ ws ++ tail)%string).
  pose proof (occurs_suffix (ws ++ tail) pre) as O. fold code in O.
  apply occurs_app in O. destruct O as (Ows & Otail).
  unfold parseMaybeComments, final.
  destruct (run_spaces code ws (init (String.length pre))) as (cs & ls & R & _); auto.
  rewrite R. simpl i. simpl out.
  rewrite (run_stop code _ tail); auto.
  unfold code. simpl. rewrite length3. lia.
Qed.

(** A block comment on a line of its own: its span is the line. *)
Lemma block_line_span pre ws indent body0 rest :
  all_chars is_space ws = true ->
  all_chars is_blank indent = true ->
  no_close body0 = true ->
  exists more,
    parseMaybeComments
      (pre ++ ws ++ nl ++ indent ++ "/*" ++ body0 ++ "*/" ++ nl ++ rest)
      (String.length pre)
    = mkRange (String.length (pre ++ ws ++ nl))
              (String.length (pre ++ ws ++ nl)
               + String.length (indent ++ "/*" ++ body0 ++ "*/" ++ nl))
      :: more.
Proof.
  intros Hws Hind Hbody.
  set (code := (pre ++ ws ++ nl ++ indent ++ "/*" ++ body0 ++ "*/" ++ nl ++ rest)%string).
  pose proof (occurs_suffix (ws ++ nl ++ indent ++ "/*" ++ body0 ++ "*/" ++ nl ++ rest) pre)
    as O.
  fold code in O.
  apply occurs_app in O. destruct O as (Ows & O).
  apply occurs_app in O. destruct O as (Onl & O).
  apply occurs_app in O. destruct O as (Oind & O).
  apply occurs_app in O. destruct O as (Oopen & O).
  apply occurs_app in O. destruct O as (Ob & O).
  apply occurs_app in O. destruct O as (Oclose & O).
  apply occurs_app in O. destruct O as (Onl2 & _).
  pose proof (occurs_join _ _ _ _ Ob Oclose) as Obody.
  simpl in Onl, Oopen, Oclose, Onl2. destruct Onl as (Onl & _).
  destruct Oopen as (Oo1 & Oo2 & _). destruct Oclose as (Oc1 & Oc2 & _).
  destruct Onl2 as (Onl2 & _).
  simpl String.length in *.
  unfold parseMaybeComments, final.
  destruct (run_spaces code ws (init (String.length pre))) as (cs1 & ls1 & R1 & _);
    auto.
  rewrite R1. simpl i. simpl out.
  rewrite run_newline; auto. simpl.
  match goal with
  | |- context [run code ?v] =>
      destruct (run_spaces code indent v) as (cs2 & ls2 & R2 & L2);
        [reflexivity | exact Oind | now apply blank_is_space | ]
  end.
  rewrite R2. cbn [i out lineStart]. specialize (L2 Hind). cbn [lineStart] in L2. subst ls2.
  rewrite run_open_block; [ | reflexivity | exact Oo1 | exact Oo2 ].
  cbn [i out lineStart].
  rewrite (run_block_body code body0);
    [ | reflexivity | exact Obody | exact Hbody ].
  cbn [i out lineStart commentStart].
  rewrite run_close_block; [ | reflexivity | exact Oc1 | exact Oc2 ].
  cbn [i out lineStart commentStart].
  assert (E : is_line_end
                (charAt code (String.length pre + String.length ws + 1
                              + String.length indent + 2 + String.length body0 + 2))
              = true).
  { unfold is_line_end, charAt. rewrite Onl2. reflexivity. }
  rewrite E. cbv zeta.
  rewrite (absorb_block_line code _ indent);
    [ | exact Onl | exact Oind | exact Hind | simpl; lia ].
  cbn [lineStart].
  match goal with
  | |- context [run code ?v] =>
      destruct (loop_out code (String.length code - i v) v) as (more & Hmore)
  end.
  unfold run. rewrite Hmore. simpl. exists more. f_equal. f_equal.
  - repeat (rewrite append_length; simpl String.length). lia.
  - repeat (rewrite append_length; simpl String.length). lia.
Qed.

(** A block comment on the line of the scan start: its span is the comment. *)
Lemma inline_block_span pre blanks body0 rest :
  all_chars is_blank blanks = true ->
  no_close body0 = true ->
  no_line_end_ahead rest = true ->
  exists more,
    parseMaybeComments (pre ++ blanks ++ "/*" ++ body0 ++ "*/" ++ rest)
                       (String.length pre)
    = mkRange (String.length (pre ++ blanks))
              (String.length (pre ++ blanks) + String.length ("/*" ++ body0 ++ "*/"))
      :: more.
Proof.
  intros Hbl Hbody Hrest.
  set (code := (pre ++ blanks ++ "/*" ++ body0 ++ "*/" ++ rest)%string).
  pose proof (occurs_suffix (blanks ++ "/*" ++ body0 ++ "*/" ++ rest) pre) as O.
  fold code in O.
  apply occurs_app in O. destruct O as (Obl & O).
  apply occurs_app in O. destruct O as (Oopen & O).
  apply occurs_app in O. destruct O as (Ob & O).
  apply occurs_app in O. destruct O as (Oclose & Orest).
  pose proof (occurs_join _ _ _ _ Ob Oclose) as Obody.
  simpl in Oopen, Oclose.
  destruct Oopen as (Oo1 & Oo2 & _). destruct Oclose as (Oc1 & Oc2 & _).
  simpl String.length in *.
  assert (Hlen : String.length code
                 = String.length pre + String.length blanks + 2
                   + String.length body0 + 2 + String.length rest).
  { unfold code. repeat (rewrite append_length; simpl String.length). lia. }
  unfold parseMaybeComments, final.
  destruct (run_spaces code blanks (init (String.length pre)))
    as (cs1 & ls1 & R1 & L1);
    [reflexivity | exact Obl | now apply blank_is_space | ].
  rewrite R1. simpl i. simpl out. specialize (L1 Hbl). cbn [lineStart init] in L1.
  subst ls1.
  rewrite run_open_block; [ | reflexivity | exact Oo1 | exact Oo2 ].
  cbn [i out lineStart].
  rewrite (run_block_body code body0); [ | reflexivity | exact Obody | exact Hbody ].
  cbn [i out lineStart commentStart].
  rewrite run_close_block; [ | reflexivity | exact Oc1 | exact Oc2 ].
  cbn [i out lineStart commentStart].
  assert (E : is_line_end
                (charAt code (String.length pre + String.length blanks + 2
                              + String.length body0 + 2))
              = false).
  { unfold is_line_end, charAt. destruct rest as [|c rest'].
    - rewrite get_None_ge; [reflexivity|]. rewrite Hlen. simpl. lia.
    - simpl in Orest. destruct Orest as (Hc & _). rewrite Hc. simpl.
      simpl in Hrest. unfold not_line_end in Hrest.
      now apply negb_true_iff in Hrest. }
  rewrite E. cbv zeta.
  rewrite (absorb_block_inline code _ blanks);
    [ | exact Obl | exact Hbl | reflexivity ].
  cbn [commentStart].
  match goal with
  | |- context [run code ?v] =>
      destruct (loop_out code (String.length code - i v) v) as (more & Hmore)
  end.
  unfold run. rewrite Hmore. simpl. exists more. f_equal. f_equal.
  - now rewrite append_length.
  - repeat (rewrite append_length; simpl String.length). lia.
Qed.

(** A line comment on the line of the scan start, after at least one
    blank: its span starts after the first blank and takes in the line
    end. *)
Lemma trailing_line_span pre b blanks body0 e rest :
  all_chars is_blank (String b blanks) = true ->
  all_chars not_line_end body0 = true ->
  not_line_end e = false ->
  exists more,
    parseMaybeComments (pre ++ String b blanks ++ "//" ++ body0 ++ String e rest)
                       (String.length pre)
    = mkRange (String.length pre + 1)
              (String.length pre + 1
               + String.length (blanks ++ "//" ++ body0 ++ String e ""))
      :: more.
Proof.
  intros Hbl Hbody He.
  set (code := (pre ++ String b blanks ++ "//" ++ body0 ++ String e rest)%string).
  pose proof (occurs_suffix (String b blanks ++ "//" ++ body0 ++ String e rest) pre) as O.
  fold code in O.
  apply occurs_app in O. destruct O as (Obl & O).
  apply occurs_app in O. destruct O as (Oopen & O).
  apply occurs_app in O. destruct O as (Obody & Oend).
  simpl in Oopen, Oend. destruct Oopen as (Oo1 & Oo2 & _). destruct Oend as (Oend & _).
  simpl String.length in *.
  unfold parseMaybeComments, final.
  destruct (run_spaces code (String b blanks) (init (String.length pre)))
    as (cs1 & ls1 & R1 & L1);
    [reflexivity | exact Obl | now apply blank_is_space | ].
  rewrite R1. simpl i. simpl out. specialize (L1 Hbl). cbn [lineStart init] in L1.
  subst ls1. simpl String.length.
  rewrite run_open_line; [ | reflexivity | exact Oo1 | exact Oo2 ].
  cbn [i out lineStart].
  rewrite (run_line_body code body0); [ | reflexivity | exact Obody | exact Hbody ].
  cbn [i out lineStart commentStart].
  simpl in Obl. destruct Obl as (Hb & _).
  simpl in Hbl. apply andb_true_iff in Hbl. destruct Hbl as (Hb' & _).
  unfold is_blank in Hb'. apply andb_true_iff in Hb'. destruct Hb' as (Hb' & _).
  rewrite (run_close_line_end code _ b e);
    [ | reflexivity | exact Oend | exact He | simpl; lia | exact Hb | exact Hb' ].
  cbn [i out lineStart].
  match goal with
  | |- context [run code ?v] =>
      destruct (loop_out code (String.length code - i v) v) as (more & Hmore)
  end.
  unfold run. rewrite Hmore. simpl. exists more. f_equal. f_equal.
  repeat (rewrite append_length; simpl String.length). lia.
Qed.

(** A comment line closed by any line end: the span runs through that one
    character. *)
Lemma line_end_span pre ws indent body0 e rest :
  all_chars is_space ws = true ->
  all_chars is_blank indent = true ->
  all_chars not_line_end body0 = true ->
  not_line_end e = false ->
  exists more,
    parseMaybeComments (pre ++ ws ++ nl ++ indent ++ "//" ++ body0 ++ String e rest)
                       (String.length pre)
    = mkRange (String.length (pre ++ ws ++ nl))
              (String.length (pre ++ ws ++ nl)
               + String.length (indent ++ "//" ++ body0 ++ String e ""))
      :: more.
Proof.
  intros Hws Hind Hbody He.
  set (code := (pre ++ ws ++ nl ++ indent ++ "//" ++ body0 ++ String e rest)%string).
  pose proof (occurs_suffix (ws ++ nl ++ indent ++ "//" ++ body0 ++ String e rest) pre) as O.
  fold code in O.
  apply occurs_app in O. destruct O as (Ows & O).
  apply occurs_app in O. destruct O as (Onl & O).
  apply occurs_app in O. destruct O as (Oind & O).
  apply occurs_app in O. destruct O as (Oopen & O).
  apply occurs_app in O. destruct O as (Obody & Oend).
  simpl in Onl, Oopen, Oend. destruct Onl as (Onl & _).
  destruct Oopen as (Oo1 & Oo2 & _). destruct Oend as (Oend & _).
  simpl String.length in *.
  unfold parseMaybeComments, final.
  destruct (run_spaces code ws (init (String.length pre))) as (cs1 & ls1 & R1 & _);
    auto.
  rewrite R1. simpl i. simpl out.
  rewrite run_newline; auto. simpl.
  match goal with
  | |- context [run code ?v] =>
      destruct (run_spaces code indent v) as (cs2 & ls2 & R2 & L2);
        [reflexivity | exact Oind | now apply blank_is_space | ]
  end.
  rewrite R2. cbn [i out lineStart]. specialize (L2 Hind). cbn [lineStart] in L2. subst ls2.
  rewrite run_open_line; [ | reflexivity | exact Oo1 | exact Oo2 ].
  cbn [i out lineStart].
  rewrite (run_line_body code body0); [ | reflexivity | exact Obody | exact Hbody ].
  cbn [i out lineStart commentStart].
  rewrite (run_close_line_end code _ LF e);
    [ | reflexivity | exact Oend | exact He | simpl; lia | exact Onl | reflexivity ].
  cbn [i out lineStart].
  match goal with
  | |- context [run code ?v] =>
      destruct (loop_out code (String.length code - i v) v) as (more & Hmore)
  end.
  unfold run. rewrite Hmore. simpl. exists more. f_equal. f_equal.
  - repeat (rewrite append_length; simpl String.length). lia.
  - repeat (rewrite append_length; simpl String.length). lia.
Qed.

End ScanResults.

Section Openers.

Lemma init_inv_opener code start0 : inv_opener code (init start0).
Proof. split; [intros H; now contradiction H|constructor]. Qed.

Lemma body_inv_opener code start0 v v' :
  i v < String.length code ->
  inv code start0 v ->
  inv_opener code v ->
  body code v = Next v' ->
  inv_opener code (incr v').
Proof.
  intros Hi (_ & _ & Hc & _ & _) (Hop & Hout) B.
  unfold body in B.
  destruct (type v) eqn:T.
  - (* NONE *)
    destruct (is_char (charAt code (i v)) slash) eqn:C1.
    + destruct (is_char (charAt code (i v + 1)) slash) eqn:C2;
        [|destruct (is_char (charAt code (i v + 1)) star) eqn:C3];
        inversion B; subst; split; simpl; try solve [auto];
        try solve [intros _; split; auto];
        rewrite ?T; intros H; exfalso; apply H; reflexivity.
    + destruct (is_char (charAt code (i v)) LF) eqn:C2;
        [|destruct (test_space (charAt code (i v))) eqn:C3];
        inversion B; subst; split; simpl; try solve [auto];
        rewrite ?T; intros H; exfalso; apply H; reflexivity.
  - (* SINGLE *)
    destruct Hc as (_ & Hc2 & _ & _); [congruence|].
    assert (Hop' : opener code (commentStart v)) by (apply Hop; congruence).
    destruct (is_char (charAt code (i v)) LF || is_char (charAt code (i v)) CR);
      inversion B; subst; split; simpl; try solve [auto];
      try solve [intros H; exfalso; apply H; reflexivity].
    apply Forall_app. split; auto. constructor; [|constructor].
    exists (commentStart v). simpl.
    destruct (absorb_cases match_leading_space code v) as [->|(-> & ?)];
      (split; [lia|split; [lia|exact Hop']]).
  - (* MULTI *)
    destruct Hc as (_ & Hc2 & _ & _); [congruence|].
    assert (Hop' : opener code (commentStart v)) by (apply Hop; congruence).
    destruct (is_char (charAt code (i v)) star
              && is_char (charAt code (i v + 1)) slash);
      [destruct (is_char (charAt code (i v + 2)) LF
                 || is_char (charAt code (i v + 2)) CR)|];
      inversion B; subst; split; simpl; try solve [auto];
      try solve [intros H; exfalso; apply H; reflexivity].
    all: apply Forall_app; split; auto; constructor; [|constructor];
      exists (commentStart v); simpl;
      destruct (absorb_cases match_newline_space code v) as [->|(-> & ?)];
      (split; [lia|split; [lia|exact Hop']]).
Qed.

Lemma loop_inv_opener code start0 :
  forall fuel v,
    inv code start0 v -> inv_opener code v -> inv_opener code (loop fuel code v).
Proof.
  induction fuel as [|fuel IH]; intros v Hv Ho; simpl; auto.
  destruct (i v <? String.length code) eqn:E; auto.
  apply Nat.ltb_lt in E.
  destruct (body code v) as [v'|v'] eqn:B.
  - apply IH.
    + eapply body_inv; eauto.
    + eapply body_inv_opener; eauto.
  - apply body_break in B. destruct B as (-> & _). exact Ho.
Qed.

End Openers.

Section CommentLines.

(** The scan over whitespace, a line feed and comment lines, from the scan
    start to the loop head after the last of the lines: the line start is
    the line feed of the last line, and the scan stands two characters
    after it. *)
Lemma run_first_lines code p ws l ls :
  occurs (ws ++ nl ++ comment_lines (l :: ls)) p code ->
  all_chars is_space ws = true ->
  Forall own_line (l :: ls) ->
  exists cs,
    run code (init p)
    = run code
        (mkVars (p + String.length ws + String.length (comment_lines (l :: ls)) + 2)
                NONE cs
                (p + String.length ws + String.length (comment_lines (l :: ls)))
                (line_spans (p + String.length ws + 1) (l :: ls))).
Proof.
  intros O Hws Hown. destruct l as [indent body0].
  apply occurs_app in O. destruct O as (Ows & O).
  apply occurs_app in O. destruct O as (Onl & Olines).
  simpl in Onl. destruct Onl as (Onl & _). simpl String.length in *.
  inversion Hown as [|? ? (_ & Hind & Hbody) Hown']; subst. simpl in Hind, Hbody.
  simpl comment_lines in Olines. apply occurs_app in Olines.
  destruct Olines as (Oline & Orest).
  assert (L : String.length (comment_line (indent, body0))
              = String.length indent + String.length body0 + 3).
  { unfold comment_line. simpl. rewrite append_length. simpl.
    rewrite append_length. simpl. lia. }
  destruct (run_spaces code ws (init p)) as (cs1 & ls1 & R1 & _); auto.
  rewrite R1. simpl i. simpl out.
  rewrite run_newline; auto. simpl.
  match goal with
  | |- context [run code ?v0] =>
      rewrite (run_line code v0 0 indent body0);
        [ | reflexivity | simpl; lia | exact Onl | exact Oline
          | exact Hind | exact Hbody ]
  end.
  cbn [i lineStart out].
  match goal with
  | |- context [run code ?v1] =>
      destruct (run_lines code ls v1) as (cs & R);
        [ reflexivity | simpl; lia | | | exact Hown' | ]
  end.
  - simpl. unfold comment_line in Oline. simpl in Oline.
    apply occurs_app in Oline. destruct Oline as (_ & Oline).
    simpl in Oline. destruct Oline as (_ & _ & Oline).
    apply occurs_app in Oline. destruct Oline as (_ & Oline).
    simpl in Oline. destruct Oline as (Oline & _).
    rewrite <- Oline. f_equal. lia.
  - simpl. rewrite L in Orest.
    replace (p + String.length ws + 1 + String.length indent + 2
             + String.length body0 + 1)
      with (p + String.length ws + 1
            + (String.length indent + String.length body0 + 3)) by lia.
    exact Orest.
  - exists cs. rewrite R. cbn [i lineStart out comment_lines line_spans app].
    rewrite append_length, L. f_equal. f_equal.
    + lia.
    + lia.
    + f_equal.
      * f_equal. lia.
      * f_equal. lia.
Qed.

End CommentLines.

(** * More of the opening-tag rule *)

Section OpeningTag.

(** A span found from a scan start of a tag with attributes is removed. *)
Lemma opening_removes options p state k r :
  attributes (node p) <> [] ->
  In k (scan_starts (node p)) ->
  In r (parseMaybeComments (original p) k) ->
  In (ms_remove (start r) (end_ r)) (fst (JSXOpeningElement options p state)).
Proof.
  intros Hattrs Hk Hr.
  unfold JSXOpeningElement. cbv zeta. unfold fst.
  apply in_or_app. right. apply in_or_app. left.
  unfold scan_starts in Hk.
  destruct (attributes (node p)) as [|a attrs] eqn:A; [congruence|].
  now apply (remove_comments_In (original p) r k (a :: attrs)).
Qed.

(** Every removal of the rule is such a span. *)
Lemma opening_removes_inv options p state a b :
  In (ms_remove a b) (fst (JSXOpeningElement options p state)) ->
  attributes (node p) <> []
  /\ exists k r,
      In k (scan_starts (node p))
      /\ In r (parseMaybeComments (original p) k)
      /\ a = start r /\ b = end_ r.
Proof.
  intros He.
  unfold JSXOpeningElement in He. cbv zeta in He. unfold fst in He.
  apply in_app_or in He. destruct He as [He|He].
  { destruct (isIdent _); simpl in He;
      repeat (destruct He as [He|He]; [discriminate|]); contradiction. }
  apply in_app_or in He. destruct He as [He|He].
  { destruct (attributes (node p)) as [|x attrs] eqn:A; [contradiction|].
    split; [discriminate|].
    apply remove_comments_inv in He. destruct He as (k & r & Hk & Hr & E).
    inversion E; subst. exists k, r. unfold scan_starts. rewrite A. auto. }
  apply in_app_or in He. destruct He as [He|He].
  { destruct (isRootElement p); [|contradiction].
    destruct He as [He|He]; [discriminate|].
    destruct (selfClosing (node p)); [|contradiction].
    destruct He as [He|[]]. discriminate. }
  unfold comments_to_html in He. apply in_flat_map in He.
  destruct He as (c & _ & He).
  destruct (_ && _); [|contradiction].
  destruct (negb _); [|contradiction].
  unfold commentToHtml in He. simpl in He.
  destruct He as [He|He]; [discriminate|].
  destruct (kind c); destruct He as [He|[]]; discriminate.
Qed.

End OpeningTag.

(** * Further properties of the scanner *)

(** X1: scanned from an offset after which the text holds whitespace and
    then something that is neither whitespace nor the opening of a comment
    (the end of the text, a character other than a slash, or a slash
    followed by neither a slash nor a star), [parseMaybeComments] returns no
    span. *)
Theorem scan_finds_nothing_before_text (pre ws tail : string) :
  all_chars is_space ws = true ->
  ends_scan tail = true ->
  parseMaybeComments (pre ++ ws ++ tail) (String.length pre) = [].
Proof. intros Hws Ht. now apply no_comment_no_span. Qed.

Lemma scan_finds_nothing_before_text_witness :
  parseMaybeComments plain_tag 10 = []
  /\ parseMaybeComments plain_tag 14 = [].
Proof.
  split.
  - apply (scan_finds_nothing_before_text
             ("<div a=" ++ dq ++ "x" ++ dq) (nl ++ "  ") "b />"); reflexivity.
  - apply (scan_finds_nothing_before_text
             ("<div a=" ++ dq ++ "x" ++ dq ++ nl ++ "  b") " " "/>"); reflexivity.
Defined.

(** X7: scanned from an offset after which the text holds whitespace, a
    line feed, one or more indented comment lines, one character, further
    whitespace and then a text at which the scan ends, the result is one
    span for each of the lines, each from the start of the line to the
    offset after its line feed, in order and adjacent. *)
Theorem comment_lines_give_their_spans
        (pre ws : string) (l : string * string) (ls : list (string * string))
        (b : ascii) (blanks tail : string) :
  all_chars is_space ws = true ->
  Forall own_line (l :: ls) ->
  all_chars is_space blanks = true ->
  ends_scan tail = true ->
  parseMaybeComments
    (pre ++ ws ++ nl ++ comment_lines (l :: ls) ++ String b (blanks ++ tail))
    (String.length pre)
  = line_spans (String.length (pre ++ ws ++ nl)) (l :: ls).
Proof.
  intros Hws Hown Hbl Ht.
  set (code := (pre ++ ws ++ nl ++ comment_lines (l :: ls)
                ++ String b (blanks ++ tail))%string).
  pose proof (occurs_suffix
                (ws ++ nl ++ comment_lines (l :: ls) ++ String b (blanks ++ tail)) pre)
    as O.
  fold code in O.
  apply occurs_app in O. destruct O as (Ows & O).
  apply occurs_app in O. destruct O as (Onl & O).
  apply occurs_app in O. destruct O as (Olines & O).
  simpl in O. destruct O as (_ & O).
  apply occurs_app in O. destruct O as (Oblanks & Otail).
  assert (Hlen : String.length code
                 = String.length pre + String.length ws + 1
                   + String.length (comment_lines (l :: ls)) + 1
                   + String.length blanks + String.length tail).
  { unfold code. repeat (rewrite append_length; simpl String.length). lia. }
  destruct (run_first_lines code (String.length pre) ws l ls) as (cs & R); auto.
  { apply occurs_join; [exact Ows|]. apply occurs_join; [exact Onl|exact Olines]. }
  unfold parseMaybeComments, final. rewrite R.
  match goal with
  | |- context [run code ?v] =>
      destruct (run_spaces code blanks v) as (cs2 & ls2 & R2 & _);
        [reflexivity | | exact Hbl | ]
  end.
  { cbn [i]. simpl String.length in Oblanks.
    replace (String.length pre + String.length ws
             + String.length (comment_lines (l :: ls)) + 2)
      with (S (String.length pre + String.length ws + 1
               + String.length (comment_lines (l :: ls)))) by lia.
    exact Oblanks. }
  rewrite R2. cbn [i out].
  rewrite (run_stop code _ tail); cbn [i out type].
  - f_equal. rewrite !append_length. simpl. lia.
  - reflexivity.
  - simpl String.length in Otail.
    replace (String.length pre + String.length ws
             + String.length (comment_lines (l :: ls)) + 2 + String.length blanks)
      with (S (String.length pre + String.length ws + 1
               + String.length (comment_lines (l :: ls))) + String.length blanks)
      by lia.
    exact Otail.
  - rewrite Hlen. lia.
  - exact Ht.
Qed.

Lemma comment_lines_give_their_spans_witness :
  parseMaybeComments two_comment_lines 4 = [mkRange 5 12; mkRange 12 18].
Proof.
  apply (comment_lines_give_their_spans
           "<div" "" ("  ", " a") [(" ", " b")] " "%char " "
           ("id=" ++ dq ++ "x" ++ dq ++ nl ++ "/>")).
  - reflexivity.
  - repeat constructor; simpl; discriminate.
  - reflexivity.
  - reflexivity.
Defined.

(** X8: every span [parseMaybeComments] returns holds the opening of a
    comment, a slash followed by a slash or a star, at or after the start
    offset of the scan: no span is made of whitespace or of other text only. *)
Theorem spans_hold_a_comment_opener (code : string) (start0 : nat) :
  Forall (fun r => exists k,
              start0 <= k /\ start r <= k /\ k + 1 < end_ r /\ opener code k)
         (parseMaybeComments code start0).
Proof.
  pose proof (final_inv code start0) as (_ & _ & _ & Hb & _).
  pose proof (loop_inv_opener code start0 (String.length code - start0) (init start0)
                (init_inv code start0) (init_inv_opener code start0)) as (_ & Ho).
  unfold parseMaybeComments, final, run. simpl i.
  unfold final, run in Hb. simpl i in Hb.
  rewrite Forall_forall in *. intros r Hr.
  destruct (Ho r Hr) as (k & H1 & H2 & H3).
  destruct (Hb r Hr) as ((Hs & _) & _).
  exists k. repeat split; auto; try lia; apply H3.
Qed.

(** * Further properties of the rewrite rules *)

(** X2: when, from the end of the tag name and from the end of every
    attribute on, the original text holds whitespace and then something that
    ends the scan, the opening-tag rule removes nothing: a tag without
    comments between its attributes keeps all its text. *)
Theorem comment_free_tag_keeps_its_text
        (options : options) (p : path opening_element) (state : file_state) :
  Forall (fun k => exists pre ws tail,
              original p = (pre ++ ws ++ tail)%string
              /\ String.length pre = k
              /\ all_chars is_space ws = true
              /\ ends_scan tail = true)
         (scan_starts (node p)) ->
  Forall (fun e => is_ms_remove e = false)
         (fst (JSXOpeningElement options p state)).
Proof.
  intros H. apply Forall_forall. intros e He.
  destruct e; try reflexivity.
  apply opening_removes_inv in He. destruct He as (_ & k & r & Hk & Hr & _).
  rewrite Forall_forall in H.
  destruct (H k Hk) as (pre & ws & tail & Ho & <- & Hws & Ht).
  rewrite Ho, no_comment_no_span in Hr; auto. contradiction.
Qed.

Lemma comment_free_tag_keeps_its_text_witness :
  Forall (fun e => is_ms_remove e = false)
         (fst (JSXOpeningElement default_options plain_tag_path (mkState false))).
Proof.
  apply comment_free_tag_keeps_its_text.
  repeat constructor.
  - exists "<div", " ", ("a=" ++ dq ++ "x" ++ dq ++ nl ++ "  b />")%string.
    repeat split; reflexivity.
  - exists ("<div a=" ++ dq ++ "x" ++ dq)%string, (nl ++ "  ")%string, "b />".
    repeat split; reflexivity.
  - exists ("<div a=" ++ dq ++ "x" ++ dq ++ nl ++ "  b")%string, " ", "/>".
    repeat split; reflexivity.
Defined.

(** X3: a block comment on a line of its own.  Let the original text hold,
    from a scan start of an opening tag with attributes on, whitespace, a
    line feed, blanks, a block comment and a line feed.  Then the rule
    removes the span of that line, from the start of its indentation to the
    offset after its line feed, and removing it leaves the text before the
    line followed by the text after it. *)
Theorem block_comment_line_is_removed
        (options : options) (p : path opening_element) (state : file_state)
        (pre ws indent body0 rest : string) :
  attributes (node p) <> [] ->
  In (String.length pre) (scan_starts (node p)) ->
  original p = (pre ++ ws ++ nl ++ indent ++ "/*" ++ body0 ++ "*/" ++ nl ++ rest)%string ->
  all_chars is_space ws = true ->
  all_chars is_blank indent = true ->
  no_close body0 = true ->
  let line_start := String.length (pre ++ ws ++ nl) in
  let line_end := line_start + String.length (indent ++ "/*" ++ body0 ++ "*/" ++ nl) in
  In (ms_remove line_start line_end) (fst (JSXOpeningElement options p state))
  /\ apply_remove (original p) (mkRange line_start line_end)
     = (pre ++ ws ++ nl ++ rest)%string.
Proof.
  intros Hattrs Hstart Horig Hws Hind Hbody line_start line_end. split.
  - destruct (block_line_span pre ws indent body0 rest Hws Hind Hbody) as (more & Hspan).
    rewrite <- Horig in Hspan.
    apply (opening_removes options p state (String.length pre)
             (mkRange line_start line_end)); auto.
    rewrite Hspan. now left.
  - rewrite Horig.
    replace (pre ++ ws ++ nl ++ indent ++ "/*" ++ body0 ++ "*/" ++ nl ++ rest)%string
      with ((pre ++ ws ++ nl) ++ (indent ++ "/*" ++ body0 ++ "*/" ++ nl) ++ rest)%string
      by (now rewrite !append_assoc).
    unfold line_end, line_start. rewrite apply_remove_middle.
    now rewrite !append_assoc.
Qed.

Lemma block_comment_line_is_removed_witness :
  In (ms_remove 5 21)
     (fst (JSXOpeningElement default_options block_comment_line_path (mkState false)))
  /\ apply_remove block_comment_line (mkRange 5 21)
     = ("<div" ++ nl ++ "  id=" ++ dq ++ "foo" ++ dq ++ nl ++ "/>")%string.
Proof.
  apply (block_comment_line_is_removed default_options block_comment_line_path
           (mkState false) "<div" "" "  " " comment "
           ("  id=" ++ dq ++ "foo" ++ dq ++ nl ++ "/>")).
  - discriminate.
  - simpl. auto.
  - reflexivity.
  - reflexivity.
  - reflexivity.
  - reflexivity.
Defined.

(** X4: a block comment on the line of the attribute before it.  Let the
    original text hold, from a scan start of an opening tag with attributes
    on, blanks and a block comment that is not followed by a line end.  Then
    the rule removes the span of the comment alone, and removing it leaves
    the blanks before the comment and the text after it in place. *)
Theorem inline_block_comment_is_removed
        (options : options) (p : path opening_element) (state : file_state)
        (pre blanks body0 rest : string) :
  attributes (node p) <> [] ->
  In (String.length pre) (scan_starts (node p)) ->
  original p = (pre ++ blanks ++ "/*" ++ body0 ++ "*/" ++ rest)%string ->
  all_chars is_blank blanks = true ->
  no_close body0 = true ->
  no_line_end_ahead rest = true ->
  let comment_start := String.length (pre ++ blanks) in
  let comment_end := comment_start + String.length ("/*" ++ body0 ++ "*/") in
  In (ms_remove comment_start comment_end) (fst (JSXOpeningElement options p state))
  /\ apply_remove (original p) (mkRange comment_start comment_end)
     = (pre ++ blanks ++ rest)%string.
Proof.
  intros Hattrs Hstart Horig Hbl Hbody Hrest comment_start comment_end. split.
  - destruct (inline_block_span pre blanks body0 rest Hbl Hbody Hrest) as (more & Hspan).
    rewrite <- Horig in Hspan.
    apply (opening_removes options p state (String.length pre)
             (mkRange comment_start comment_end)); auto.
    rewrite Hspan. now left.
  - rewrite Horig.
    replace (pre ++ blanks ++ "/*" ++ body0 ++ "*/" ++ rest)%string
      with ((pre ++ blanks) ++ ("/*" ++ body0 ++ "*/") ++ rest)%string
      by (now rewrite !append_assoc).
    unfold comment_end, comment_start. rewrite apply_remove_middle.
    now rewrite !append_assoc.
Qed.

Lemma inline_block_comment_is_removed_witness :
  In (ms_remove 3 16)
     (fst (JSXOpeningElement default_options inline_block_comments_path (mkState false)))
  /\ apply_remove inline_block_comments (mkRange 3 16)
     = ("<A  foo=" ++ dq ++ "a" ++ dq ++ " /* other comment */ />")%string.
Proof.
  apply (inline_block_comment_is_removed default_options inline_block_comments_path
           (mkState false) "<A" " " " comment "
           (" foo=" ++ dq ++ "a" ++ dq ++ " /* other comment */ />")).
  - discriminate.
  - simpl. auto.
  - reflexivity.
  - reflexivity.
  - reflexivity.
  - reflexivity.
Defined.

(** X5: a line comment on the line of the attribute before it.  Let the
    original text hold, from a scan start of an opening tag with attributes
    on, at least one blank, a line comment and the line end that closes it.
    Then the rule removes the span from the offset after the first blank to
    the offset after the line end: removing it leaves that one blank, and
    the text of the next line follows it on the same line. *)
Theorem trailing_line_comment_is_removed
        (options : options) (p : path opening_element) (state : file_state)
        (pre : string) (b : ascii) (blanks body0 : string) (e : ascii) (rest : string) :
  attributes (node p) <> [] ->
  In (String.length pre) (scan_starts (node p)) ->
  original p = (pre ++ String b blanks ++ "//" ++ body0 ++ String e rest)%string ->
  all_chars is_blank (String b blanks) = true ->
  all_chars not_line_end body0 = true ->
  not_line_end e = false ->
  let span_start := String.length pre + 1 in
  let span_end := span_start + String.length (blanks ++ "//" ++ body0 ++ String e "") in
  In (ms_remove span_start span_end) (fst (JSXOpeningElement options p state))
  /\ apply_remove (original p) (mkRange span_start span_end)
     = (pre ++ String b rest)%string.
Proof.
  intros Hattrs Hstart Horig Hbl Hbody He span_start span_end. split.
  - destruct (trailing_line_span pre b blanks body0 e rest Hbl Hbody He)
      as (more & Hspan).
    rewrite <- Horig in Hspan.
    apply (opening_removes options p state (String.length pre)
             (mkRange span_start span_end)); auto.
    rewrite Hspan. now left.
  - rewrite Horig.
    replace (pre ++ String b blanks ++ "//" ++ body0 ++ String e rest)%string
      with ((pre ++ String b "")
            ++ (blanks ++ "//" ++ body0 ++ String e "") ++ rest)%string
      by (rewrite !append_assoc; reflexivity).
    unfold span_end, span_start.
    replace (String.length pre + 1) with (String.length (pre ++ String b ""))
      by (rewrite append_length; reflexivity).
    rewrite apply_remove_middle.
    now rewrite append_assoc.
Qed.

Lemma trailing_line_comment_is_removed_witness :
  In (ms_remove 11 16)
     (fst (JSXOpeningElement default_options trailing_line_comment_path (mkState false)))
  /\ apply_remove trailing_line_comment (mkRange 11 16)
     = ("<div a=" ++ dq ++ "x" ++ dq ++ "   b />")%string.
Proof.
  apply (trailing_line_comment_is_removed default_options trailing_line_comment_path
           (mkState false) ("<div a=" ++ dq ++ "x" ++ dq) " "%char "" " c" LF "  b />").
  - discriminate.
  - simpl. auto.
  - reflexivity.
  - reflexivity.
  - reflexivity.
  - reflexivity.
Defined.

(** X6: a comment line in a text with CR LF line ends.  Let the original
    text hold, from a scan start of an opening tag with attributes on,
    whitespace, a line feed, blanks, a line comment, and a carriage return
    followed by a line feed.  Then the rule removes the span from the start
    of the indentation to the offset after the carriage return only: the
    line feed of the pair stays, so that removing the span leaves an empty
    line where the comment was. *)
Theorem crlf_comment_line_leaves_a_line_feed
        (options : options) (p : path opening_element) (state : file_state)
        (pre ws indent body0 rest : string) :
  attributes (node p) <> [] ->
  In (String.length pre) (scan_starts (node p)) ->
  original p = (pre ++ ws ++ nl ++ indent ++ "//" ++ body0 ++ String CR (nl ++ rest))%string ->
  all_chars is_space ws = true ->
  all_chars is_blank indent = true ->
  all_chars not_line_end body0 = true ->
  let line_start := String.length (pre ++ ws ++ nl) in
  let span_end := line_start + String.length (indent ++ "//" ++ body0 ++ String CR "") in
  In (ms_remove line_start span_end) (fst (JSXOpeningElement options p state))
  /\ apply_remove (original p) (mkRange line_start span_end)
     = (pre ++ ws ++ nl ++ nl ++ rest)%string.
Proof.
  intros Hattrs Hstart Horig Hws Hind Hbody line_start span_end. split.
  - destruct (line_end_span pre ws indent body0 CR (nl ++ rest) Hws Hind Hbody)
      as (more & Hspan); [reflexivity|].
    rewrite <- Horig in Hspan.
    apply (opening_removes options p state (String.length pre)
             (mkRange line_start span_end)); auto.
    rewrite Hspan. now left.
  - rewrite Horig.
    replace (pre ++ ws ++ nl ++ indent ++ "//" ++ body0 ++ String CR (nl ++ rest))%string
      with ((pre ++ ws ++ nl)
            ++ (indent ++ "//" ++ body0 ++ String CR "") ++ (nl ++ rest))%string
      by (rewrite !append_assoc; reflexivity).
    unfold span_end, line_start. rewrite apply_remove_middle.
    now rewrite !append_assoc.
Qed.

Lemma crlf_comment_line_leaves_a_line_feed_witness :
  In (ms_remove 6 19)
     (fst (JSXOpeningElement default_options scenario4_crlf_path (mkState false)))
  /\ apply_remove scenario4_crlf (mkRange 6 19)
     = ("<div" ++ crlf ++ nl ++ "  id=" ++ dq ++ "foo" ++ dq ++ crlf ++ "/>")%string.
Proof.
  apply (crlf_comment_line_leaves_a_line_feed default_options scenario4_crlf_path
           (mkState false) "<div" (String CR "") "  " " comment"
           ("  id=" ++ dq ++ "foo" ++ dq ++ crlf ++ "/>")).
  - discriminate.
  - simpl. auto.
  - reflexivity.
  - reflexivity.
  - reflexivity.
  - reflexivity.
Defined.

Section HtmlComments.

Lemma inside_attribute_spec attrs c :
  existsb (fun attr => (start attr <=? start c) && (end_ c <=? end_ attr)) attrs = true
  <-> inside_attribute attrs c.
Proof.
  unfold inside_attribute. rewrite existsb_exists.
  split; intros (a & Ha & H); exists a; split; auto.
  - apply andb_true_iff in H. destruct H as (H1 & H2).
    apply Nat.leb_le in H1, H2. auto.
  - destruct H as (H1 & H2). apply andb_true_iff. split; now apply Nat.leb_le.
Qed.

(** The edits that turn one comment into an HTML comment. *)
Lemma commentToHtml_edits c e :
  In e (commentToHtml c 0 None)
  <-> (e = ms_overwrite (start (comment_loc c)) (start (comment_loc c) + 2) "<!--"
       \/ (kind c = Block
           /\ e = ms_overwrite (end_ (comment_loc c) - 2) (end_ (comment_loc c)) "-->")
       \/ (kind c = Line /\ e = ms_appendRight (end_ (comment_loc c)) "-->")).
Proof.
  unfold commentToHtml. simpl. destruct (kind c); simpl; split.
  - intros [H|[H|[]]]; auto.
  - intros [H|[(H & _)|(_ & H)]]; auto. discriminate.
  - intros [H|[H|[]]]; auto.
  - intros [H|[(_ & H)|(H & _)]]; auto. discriminate.
Qed.

(** The comments the rule turns into HTML comments. *)
Lemma comments_to_html_edits p e :
  In e (comments_to_html p)
  <-> exists c,
      In c (comments p)
      /\ end_ (name_loc (opening_name (node p))) <= start (comment_loc c)
      /\ end_ (comment_loc c) < end_ (opening_loc (node p))
      /\ ~ inside_attribute (attributes (node p)) (comment_loc c)
      /\ In e (commentToHtml c 0 None).
Proof.
  unfold comments_to_html. rewrite in_flat_map. split.
  - intros (c & Hc & He). exists c. split; auto.
    destruct ((end_ (name_loc (opening_name (node p))) <=? start (comment_loc c))
              && (end_ (comment_loc c) <? end_ (opening_loc (node p)))) eqn:E;
      [|contradiction].
    apply andb_true_iff in E. destruct E as (E1 & E2).
    apply Nat.leb_le in E1. apply Nat.ltb_lt in E2.
    destruct (existsb _ (attributes (node p))) eqn:X; simpl in He; [contradiction|].
    repeat split; auto.
    intros H. apply inside_attribute_spec in H. congruence.
  - intros (c & Hc & H1 & H2 & H3 & He). exists c. split; auto.
    apply Nat.leb_le in H1. apply Nat.ltb_lt in H2. rewrite H1, H2. simpl.
    destruct (existsb _ (attributes (node p))) eqn:X; simpl; auto.
    apply inside_attribute_spec in X. contradiction.
Qed.

(** The overwrites and insertions of the opening-tag rule are those of its
    loop over the comments. *)
Lemma opening_html_edits options p state e :
  is_html_edit e = true ->
  (In e (fst (JSXOpeningElement options p state)) <-> In e (comments_to_html p)).
Proof.
  intros Hh. unfold JSXOpeningElement. cbv zeta. unfold fst. split.
  - intros He.
    apply in_app_or in He. destruct He as [He|He].
    { destruct (isIdent _); simpl in He;
        repeat (destruct He as [<-|He]; [discriminate|]); contradiction. }
    apply in_app_or in He. destruct He as [He|He].
    { destruct (attributes (node p)) as [|x attrs]; [contradiction|].
      apply remove_comments_inv in He. destruct He as (k & r & _ & _ & ->).
      discriminate. }
    apply in_app_or in He. destruct He as [He|He]; auto.
    destruct (isRootElement p); [|contradiction].
    destruct He as [<-|He]; [discriminate|].
    destruct (selfClosing (node p)); [|contradiction].
    destruct He as [<-|[]]. discriminate.
  - intros He. apply in_or_app. right. apply in_or_app. right.
    apply in_or_app. now right.
Qed.

End HtmlComments.

(** X9: the removals of the opening-tag rule are exactly the spans that
    [parseMaybeComments] finds in the original text from the end of the tag
    name and from the end of each attribute, and there are none when the tag
    has no attribute. *)
Theorem removals_are_the_scanned_spans
        (options : options) (p : path opening_element) (state : file_state)
        (a b : nat) :
  In (ms_remove a b) (fst (JSXOpeningElement options p state))
  <-> (attributes (node p) <> []
       /\ exists k r,
           In k (scan_starts (node p))
           /\ In r (parseMaybeComments (original p) k)
           /\ a = start r /\ b = end_ r).
Proof.
  split.
  - apply opening_removes_inv.
  - intros (Hattrs & k & r & Hk & Hr & -> & ->).
    now apply (opening_removes options p state k r).
Qed.

(** X10: every edit the opening-tag rule issues at explicit offsets lies
    between the end of the tag name and the end of the original text, when
    the attributes end after the name, the tag ends inside the text, and the
    listed comments are at least two characters long. *)
Theorem opening_edits_stay_after_the_name
        (options : options) (p : path opening_element) (state : file_state)
        (e : edit) (r : range) :
  Forall (fun a => end_ (name_loc (opening_name (node p))) <= end_ a)
         (attributes (node p)) ->
  Forall (fun c => start (comment_loc c) + 2 <= end_ (comment_loc c)) (comments p) ->
  end_ (opening_loc (node p)) <= String.length (original p) ->
  In e (fst (JSXOpeningElement options p state)) ->
  edit_range e = Some r ->
  end_ (name_loc (opening_name (node p))) <= start r
  /\ start r <= end_ r
  /\ end_ r <= String.length (original p).
Proof.
  intros Hattrs Hcomments Hend He Hr.
  destruct e; try discriminate; simpl in Hr; inversion Hr; subst; simpl.
  - apply opening_removes_inv in He.
    destruct He as (_ & k & r & Hk & Hin & -> & ->).
    pose proof (final_inv (original p) k) as (_ & _ & _ & Ho & _).
    unfold parseMaybeComments in Hin. rewrite Forall_forall in Ho.
    destruct (Ho r Hin) as ((H1 & H2 & H3) & _).
    repeat split; try lia.
    unfold scan_starts in Hk. destruct Hk as [<-|Hk]; [exact H1|].
    apply in_map_iff in Hk. destruct Hk as (x & <- & Hx).
    rewrite Forall_forall in Hattrs. specialize (Hattrs x Hx). lia.
  - apply opening_html_edits in He; [|reflexivity].
    apply comments_to_html_edits in He.
    destruct He as (c & Hc & H1 & H2 & _ & He).
    rewrite Forall_forall in Hcomments. specialize (Hcomments c Hc).
    apply commentToHtml_edits in He.
    destruct He as [He|[(_ & He)|(_ & He)]]; inversion He; subst; lia.
  - apply opening_html_edits in He; [|reflexivity].
    apply comments_to_html_edits in He.
    destruct He as (c & Hc & H1 & H2 & _ & He).
    rewrite Forall_forall in Hcomments. specialize (Hcomments c Hc).
    apply commentToHtml_edits in He.
    destruct He as [He|[(_ & He)|(_ & He)]]; inversion He; subst; lia.
Qed.

Lemma opening_edits_stay_after_the_name_witness :
  In (ms_remove 20 29)
     (fst (JSXOpeningElement default_options attribute_comment_path (mkState false)))
  /\ 4 <= 20 /\ 20 <= 29 /\ 29 <= 32.
Proof.
  assert (H : In (ms_remove 20 29)
                 (fst (JSXOpeningElement default_options attribute_comment_path
                         (mkState false)))) by (simpl; auto).
  split; [exact H|].
  apply (opening_edits_stay_after_the_name default_options attribute_comment_path
           (mkState false) (ms_remove 20 29) (mkRange 20 29)).
  - repeat constructor.
  - repeat constructor.
  - simpl. lia.
  - exact H.
  - reflexivity.
Defined.

(** X11: the opening-tag rule turns a listed comment into an HTML comment
    exactly when the comment starts at or after the end of the tag name,
    ends before the end of the tag, and lies inside no attribute.  Its
    opening marker is then overwritten by the opening of an HTML comment;
    the closing marker of a block comment is overwritten by the closing of
    an HTML comment, and that closing is inserted at the end of a line
    comment.  The rule issues no other overwrite or insertion at an offset. *)
Theorem html_comments_come_from_comments_outside_attributes
        (options : options) (p : path opening_element) (state : file_state)
        (e : edit) :
  (In e (fst (JSXOpeningElement options p state)) /\ is_html_edit e = true)
  <-> exists c,
      In c (comments p)
      /\ end_ (name_loc (opening_name (node p))) <= start (comment_loc c)
      /\ end_ (comment_loc c) < end_ (opening_loc (node p))
      /\ ~ inside_attribute (attributes (node p)) (comment_loc c)
      /\ (e = ms_overwrite (start (comment_loc c)) (start (comment_loc c) + 2) "<!--"
          \/ (kind c = Block
              /\ e = ms_overwrite (end_ (comment_loc c) - 2) (end_ (comment_loc c)) "-->")
          \/ (kind c = Line /\ e = ms_appendRight (end_ (comment_loc c)) "-->")).
Proof.
  split.
  - intros (He & Hh). apply (opening_html_edits options p state e Hh) in He.
    apply comments_to_html_edits in He.
    destruct He as (c & Hc & H1 & H2 & H3 & He). exists c.
    apply commentToHtml_edits in He. auto 6.
  - intros (c & Hc & H1 & H2 & H3 & He).
    assert (Hh : is_html_edit e = true).
    { destruct He as [->|[(_ & ->)|(_ & ->)]]; reflexivity. }
    split; [|exact Hh].
    apply (opening_html_edits options p state e Hh).
    apply comments_to_html_edits. exists c.
    repeat split; auto. now apply commentToHtml_edits.
Qed.

(** X12: an opening tag without attributes gets no removal, whatever
    comments it holds: the scanner is not run on it. *)
Theorem tag_without_attributes_gets_no_removal
        (options : options) (p : path opening_element) (state : file_state) :
  attributes (node p) = [] ->
  Forall (fun e => is_ms_remove e = false)
         (fst (JSXOpeningElement options p state)).
Proof.
  intros H. apply Forall_forall. intros e He.
  destruct e; try reflexivity.
  apply opening_removes_inv in He. destruct He as (Hne & _). contradiction.
Qed.

Lemma tag_without_attributes_gets_no_removal_witness :
  fst (JSXOpeningElement default_options bare_tag_comment_path (mkState false))
  = [prependString Self "html`"; ms_overwrite 5 7 "<!--"; ms_overwrite 10 12 "-->"]
  /\ Forall (fun e => is_ms_remove e = false)
            (fst (JSXOpeningElement default_options bare_tag_comment_path
                    (mkState false))).
Proof.
  split; [reflexivity|].
  apply (tag_without_attributes_gets_no_removal default_options bare_tag_comment_path).
  reflexivity.
Defined.

Section NamesAndImports.

Lemma plain_not_upper c : is_plain_char c = true -> is_upper c = false.
Proof.
  unfold is_plain_char, is_upper. intros H.
  apply orb_true_iff in H. destruct H as [H|H].
  - apply orb_true_iff in H. destruct H as [H|H];
      apply andb_true_iff in H; destruct H as (H1 & H2);
      apply Nat.leb_le in H1, H2; apply andb_false_iff;
      first [left; apply Nat.leb_gt; lia | right; apply Nat.leb_gt; lia].
  - apply Nat.eqb_eq in H. rewrite H. reflexivity.
Qed.

Lemma plain_not_dot_or_dollar c : is_plain_char c = true -> is_dot_or_dollar c = false.
Proof.
  unfold is_plain_char, is_dot_or_dollar. intros H.
  apply orb_false_iff. split; apply Nat.eqb_neq; intros E; rewrite E in H; discriminate.
Qed.

(** A name of lower-case letters, digits and hyphens is not a component's. *)
Lemma plain_name_not_component n :
  all_chars is_plain_char n = true -> test_component n = false.
Proof.
  intros H. unfold test_component. apply orb_false_iff. split.
  - destruct n as [|c n]; auto. simpl in H.
    apply andb_true_iff in H. destruct H as (H & _). now apply plain_not_upper.
  - induction n as [|c n IH]; simpl; auto. simpl in H.
    apply andb_true_iff in H. destruct H as (Hc & Hn).
    rewrite (plain_not_dot_or_dollar _ Hc). simpl. auto.
Qed.

Lemma on_name_remove_comments code : forall attrs k,
    filter on_name (remove_comments code k attrs) = [].
Proof.
  assert (M : forall rs : list range,
             filter on_name (map (fun c => ms_remove (start c) (end_ c)) rs) = [])
    by (induction rs; simpl; auto).
  induction attrs as [|a attrs IH]; intros k; simpl.
  - apply M.
  - now rewrite filter_app, M, IH.
Qed.

Lemma on_name_comments_to_html p : filter on_name (comments_to_html p) = [].
Proof.
  unfold comments_to_html.
  induction (comments p) as [|c cs IH]; simpl; auto.
  rewrite filter_app, IH, app_nil_r.
  destruct (_ && _); auto. destruct (negb _); auto.
  unfold commentToHtml. simpl. destruct (kind c); reflexivity.
Qed.

(** What the opening-tag rule issues on the name of the tag. *)
Lemma opening_name_edits options p state :
  filter on_name (fst (JSXOpeningElement options p state))
  = if isIdent (opening_name (node p))
    then [prependString (Get "name") "${"; appendString (Get "name") "}"]
    else [].
Proof.
  unfold JSXOpeningElement. cbv zeta. unfold fst.
  rewrite !filter_app, on_name_comments_to_html, app_nil_r.
  destruct (isIdent (opening_name (node p)));
    destruct (attributes (node p)) as [|r l];
    rewrite ?on_name_remove_comments; simpl;
    destruct (isRootElement p); try reflexivity;
    destruct (selfClosing (node p)); reflexivity.
Qed.

Lemma on_body_remove_comments code : forall attrs k,
    filter on_body (remove_comments code k attrs) = [].
Proof.
  assert (M : forall rs : list range,
             filter on_body (map (fun c => ms_remove (start c) (end_ c)) rs) = [])
    by (induction rs; simpl; auto).
  induction attrs as [|a attrs IH]; intros k; simpl.
  - apply M.
  - now rewrite filter_app, M, IH.
Qed.

Lemma on_body_comments_to_html p : filter on_body (comments_to_html p) = [].
Proof.
  unfold comments_to_html.
  induction (comments p) as [|c cs IH]; simpl; auto.
  rewrite filter_app, IH, app_nil_r.
  destruct (_ && _); auto. destruct (negb _); auto.
  unfold commentToHtml. simpl. destruct (kind c); reflexivity.
Qed.

Lemma opening_no_body options p state :
  filter on_body (fst (JSXOpeningElement options p state)) = [].
Proof.
  unfold JSXOpeningElement. cbv zeta. unfold fst.
  rewrite !filter_app, on_body_comments_to_html, app_nil_r.
  destruct (isIdent (opening_name (node p)));
    destruct (attributes (node p)) as [|r l];
    rewrite ?on_body_remove_comments; simpl;
    destruct (isRootElement p); try reflexivity;
    destruct (selfClosing (node p)); reflexivity.
Qed.

(** No handler of a node issues an edit on the body of the program. *)
Lemma dispatch_no_body options n state :
  filter on_body
         (fst (dispatch (mkVisitor (Program_exit options) (JSXOpeningElement options)
                           (JSXClosingElement options) (JSXOpeningFragment options)
                           JSXClosingFragment JSXSpreadAttribute JSXText
                           JSXExpressionContainer) n state))
  = [].
Proof.
  destruct n as [p|p|p|p|p|p|p|t].
  - cbn [dispatch on_JSXOpeningElement]. apply opening_no_body.
  - reflexivity.
  - simpl. unfold JSXOpeningFragment. destruct (negb _); reflexivity.
  - simpl. unfold JSXClosingFragment. destruct (negb _); reflexivity.
  - reflexivity.
  - simpl. unfold JSXText. destruct (test_markup _); reflexivity.
  - simpl. unfold JSXExpressionContainer. destruct (isJSXEmptyExpression _); reflexivity.
  - reflexivity.
Qed.

Lemma walk_no_body options ns :
  forall state,
    filter on_body
           (fst (walk (mkVisitor (Program_exit options) (JSXOpeningElement options)
                         (JSXClosingElement options) (JSXOpeningFragment options)
                         JSXClosingFragment JSXSpreadAttribute JSXText
                         JSXExpressionContainer) ns state))
    = [].
Proof.
  induction ns as [|n ns IH]; intros state; [reflexivity|].
  cbn [walk].
  pose proof (dispatch_no_body options n state) as D.
  destruct (dispatch _ n state) as [es st] eqn:E.
  specialize (IH st). destruct (walk _ ns st) as [es' st'] eqn:W.
  simpl in *. now rewrite filter_app, D, IH.
Qed.

End NamesAndImports.

(** X13: for every configuration and every walk, the log of a file holds
    one edit on the body of the program, the import that the end-of-file
    rule prepends, when the walk reached the opening tag of an element and an
    import is configured ([options.import] is a non-empty string or an
    object), and none otherwise. *)
Theorem import_is_prepended_at_most_once (options : options) (ns : list visit) :
  exists es,
    transform options ns = Return es
    /\ filter on_body es
       = (if existsb is_opening_element ns && truthy_import (tagImport options)
          then Program_exit options (mkState true)
          else [])
    /\ List.length (filter on_body es)
       = if existsb is_opening_element ns && truthy_import (tagImport options)
         then 1 else 0.
Proof.
  unfold transform. simpl.
  pose proof (walk_no_body options ns (mkState false)) as B.
  pose proof (walk_jsx options ns (mkState false)) as J.
  destruct (walk _ ns (mkState false)) as [es st] eqn:W. simpl in *.
  eexists. split; [reflexivity|].
  rewrite filter_app, B. simpl. destruct st as [j]. simpl in J. subst j.
  unfold Program_exit. simpl.
  destruct (existsb is_opening_element ns); simpl; [|auto].
  destruct (truthy_import (tagImport options)); simpl; auto.
Qed.

(** X14: the name of a tag made of lower-case letters, digits and hyphens
    is left as it is: the opening-tag rule issues no edit on the name, and
    the closing tag is replaced by its own text, followed by a backtick at
    the root. *)
Theorem plain_tag_names_are_kept
        (options : options) (loc : range) (n : string)
        (p : path opening_element) (q : path closing_element) (state : file_state) :
  all_chars is_plain_char n = true ->
  opening_name (node p) = JSXIdentifier loc n ->
  closing_name (node q) = JSXIdentifier loc n ->
  filter on_name (fst (JSXOpeningElement options p state)) = []
  /\ JSXClosingElement options q
     = [replaceWithString Self
          (if isRootElement q then ("</" ++ n ++ ">" ++ "`")%string
           else ("</" ++ n ++ ">")%string)].
Proof.
  intros Hn Hp Hq. pose proof (plain_name_not_component n Hn) as Hc. split.
  - rewrite opening_name_edits, Hp. simpl. now rewrite Hc.
  - unfold JSXClosingElement. rewrite Hq. simpl. rewrite Hc. simpl.
    destruct (isRootElement q); [|reflexivity].
    now rewrite append_assoc.
Qed.

Lemma plain_tag_names_are_kept_witness :
  filter on_name (fst (JSXOpeningElement default_options scenario4_path (mkState false)))
  = []
  /\ JSXClosingElement default_options
       (mkPath (mkClosing (mkRange 8 14) (JSXIdentifier (mkRange 1 4) "div"))
               (Some "JSXElement") "<a><div></div></a>" [])
     = [replaceWithString Self "</div>"].
Proof.
  apply (plain_tag_names_are_kept default_options (mkRange 1 4) "div" scenario4_path
           (mkPath (mkClosing (mkRange 8 14) (JSXIdentifier (mkRange 1 4) "div"))
                   (Some "JSXElement") "<a><div></div></a>" [])
           (mkState false)); reflexivity.
Defined.

(** X15: with the [terse] option set, the closing tag of every component,
    whether its name is an identifier or a member access, is replaced by
    the same text, the short closing tag, followed by a backtick at the
    root. *)
Theorem terse_closing_tags_are_short (options : options) (p : path closing_element) :
  terse options = Some true ->
  isIdent (closing_name (node p)) = true ->
  JSXClosingElement options p
  = [replaceWithString Self (if isRootElement p then "<//>`" else "<//>")].
Proof.
  intros Ht Hi. unfold JSXClosingElement. rewrite Hi, Ht. simpl.
  destruct (isRootElement p); reflexivity.
Qed.

Lemma terse_closing_tags_are_short_witness :
  JSXClosingElement terse_options member_closing_path
  = [replaceWithString Self "<//>`"].
Proof.
  apply (terse_closing_tags_are_short terse_options member_closing_path);
    reflexivity.
Defined.

(** X16: when the end-of-file rule issues an edit, the flag is set and the
    edit prepends one import statement to the body.  The statement binds the
    tag name that the delimiters use, which is never empty: it imports that
    name itself, or another export under that name. *)
Theorem import_binds_the_tag_name
        (options : options) (state : file_state) (e : edit) :
  In e (Program_exit options state) ->
  jsx state = true
  /\ tagString options <> EmptyString
  /\ Program_exit options state = [e]
  /\ exists imp lib,
      e = prependString (Get "body")
            ("import { " ++ imp ++ " } from '" ++ lib ++ "';" ++ nl)%string
      /\ (imp = tagString options
          \/ exists export,
              export <> tagString options
              /\ imp = (export ++ " as " ++ tagString options)%string).
Proof.
  intros He. unfold Program_exit in *.
  destruct (jsx state); simpl in He; [|contradiction].
  destruct (truthy_import (tagImport options)); simpl in He; [|contradiction].
  destruct He as [<-|[]].
  split; [reflexivity|]. split.
  - unfold tagString. destruct (tag options) as [s|]; [|discriminate].
    destruct s; simpl; discriminate.
  - split; [reflexivity|].
    eexists. eexists. split; [reflexivity|].
    match goal with
    | |- context [String.eqb (tagString options) ?x] =>
        destruct (String.eqb (tagString options) x) eqn:E
    end.
    + left. apply String.eqb_eq in E. now symmetry.
    + right. apply String.eqb_neq in E. eexists. split; [|reflexivity].
      intros H. apply E. now symmetry.
Qed.

Lemma import_binds_the_tag_name_witness :
  Program_exit aliased_import (mkState true)
  = [prependString (Get "body") ("import { html as h } from 'preact';" ++ nl)%string]
  /\ tagString aliased_import <> EmptyString.
Proof.
  assert (H : In (prependString (Get "body")
                    ("import { html as h } from 'preact';" ++ nl)%string)
                 (Program_exit aliased_import (mkState true))) by (simpl; auto).
  destruct (import_binds_the_tag_name aliased_import (mkState true) _ H)
    as (_ & Ht & Hp & _).
  split; [exact Hp|exact Ht].
Defined.

(** X17: the opening-tag rule wraps the name of the tag, by a prepended
    and an appended text on the name, exactly when the name is a
    component's: an identifier that starts with an upper-case letter or holds
    a dot or a dollar sign, or a member access.  It issues no other edit on
    the name. *)
Theorem component_names_are_wrapped
        (options : options) (p : path opening_element) (state : file_state) :
  filter on_name (fst (JSXOpeningElement options p state))
  = (if isIdent (opening_name (node p))
     then [prependString (Get "name") "${"; appendString (Get "name") "}"]
     else [])
  /\ (isIdent (opening_name (node p)) = true
      <-> match opening_name (node p) with
          | JSXIdentifier _ n =>
              (exists c rest, n = String c rest /\ is_upper c = true)
              \/ (exists c, In c (list_ascii_of_string n) /\ is_dot_or_dollar c = true)
          | JSXMemberExpression _ _ _ => True
          | JSXNamespacedName _ _ _ => False
          end).
Proof.
  split; [apply opening_name_edits|].
  destruct (opening_name (node p)) as [loc n| |]; simpl.
  - unfold test_component. rewrite orb_true_iff, existsb_exists. split.
    + intros [H|H]; [left|right; exact H].
      destruct n as [|c rest]; [discriminate|]. now exists c, rest.
    + intros [(c & rest & -> & H)|H]; [left; exact H|right; exact H].
  - tauto.
  - split; [discriminate|contradiction].
Qed.

(** X18: the handlers of closing tags, fragments, spread attributes, texts
    and expression containers edit their own node only: every edit they
    issue is on the handler's own path, none is at an explicit offset or on
    another path, each of them issues at least one edit and at most three,
    and none of them changes the traversal state. *)
Theorem node_handlers_edit_their_own_node
        (options : options) (n : visit) (state : file_state) :
  match transformJsxToHtmLite options with
  | Return plugin =>
      match n with
      | OpeningElement _ | Unhandled _ => True
      | _ =>
          Forall (fun e => on_self e = true) (fst (dispatch (visitor_of plugin) n state))
          /\ 1 <= List.length (fst (dispatch (visitor_of plugin) n state)) <= 3
          /\ snd (dispatch (visitor_of plugin) n state) = state
      end
  | Throw _ => False
  end.
Proof.
  simpl. destruct n as [p|p|p|p|p|p|p|t]; simpl; auto.
  - split; [repeat constructor|split; [lia|reflexivity]].
  - unfold JSXOpeningFragment. destruct (negb _); simpl;
      (split; [repeat constructor|split; [lia|reflexivity]]).
  - unfold JSXClosingFragment. destruct (negb _); simpl;
      (split; [repeat constructor|split; [lia|reflexivity]]).
  - split; [repeat constructor|split; [lia|reflexivity]].
  - unfold JSXText. destruct (test_markup _); simpl;
      (split; [repeat constructor|split; [lia|reflexivity]]).
  - unfold JSXExpressionContainer. destruct (isJSXEmptyExpression _); simpl;
      (split; [repeat constructor|split; [lia|reflexivity]]).
Qed.
